(** * validate_freeze_migration.py: a shallow embedding and its properties

    The script [scripts/db/validate_freeze_migration.py] reads a [.env]
    file, sends two POST requests to a Supabase RPC endpoint and prints
    a report.  This development embeds its three functions ([load_env],
    [call_rpc], [main]) together with the parts of the Python standard
    library they call, and proves the properties the specification
    states about them.

    - Module [Py] models Python values: [str] as a list of Unicode code
      points, [bytes] as a list of bytes, exceptions, and the [str]
      methods the script calls.
    - Module [Codec] models [json.dumps] and the UTF-8 codec.
    - Module [World] models what a run meets and changes: the file
      system, the remote server, standard output, in a monad of state
      and exceptions; and the constructor of [urllib.request.Request],
      which refuses some URLs.
    - Module [Script] embeds [load_env], [call_rpc] and [main], and
      names the notions the properties speak of.
    - Module [Samples] holds sample files and servers.
    - Modules [StrFacts], [EnvProps], [CodecFacts], [RpcProps] and
      [Scenarios] hold the lemmas and the properties; [StripFacts],
      [SplitFacts], [EnvExtra], [Utf8Facts] and [RpcExtra] hold further
      ones. *)

From Stdlib Require Import ZArith NArith Strings.String Strings.Ascii Strings.Byte DecimalString.
From stdpp Require Import gmap list.

#[local] Open Scope N_scope.

(* ===================================================================== *)
(** ** Python values *)
(* ===================================================================== *)

Module Py.

(** A Python [str] is a sequence of Unicode code points. *)
Abbreviation str := (list N).

(** A Python [bytes] object. *)
Abbreviation bytes := (list byte).

(** An ASCII literal, read as a [str]. *)
Definition lit (s : string) : str :=
  map N_of_ascii (list_ascii_of_string s).

(** Exceptions the script can meet.  [HTTPError] carries what the
    handler of [call_rpc] reads from it: [e.code] and [e.read()]. *)
Inductive exception :=
| HTTPError (code : Z) (content : bytes)
| URLError (reason : string)
| TimeoutError
| OSError (msg : string)
| ValueError (msg : string)
| UnicodeEncodeError.

(** Outcome of a computation that may raise. *)
Inductive result (A : Type) :=
| Ok (a : A)
| Raise (e : exception).
Arguments Ok {A} a.
Arguments Raise {A} e.

(** [str.isspace] on one character ([Py_UNICODE_ISSPACE]). *)
Definition isspace (c : N) : bool :=
  (0x09 <=? c) && (c <=? 0x0D)
  || (0x1C <=? c) && (c <=? 0x20)
  || (c =? 0x85) || (c =? 0xA0) || (c =? 0x1680)
  || (0x2000 <=? c) && (c <=? 0x200A)
  || (c =? 0x2028) || (c =? 0x2029) || (c =? 0x202F)
  || (c =? 0x205F) || (c =? 0x3000).

(** Line boundaries recognised by [str.splitlines]
    ([Py_UNICODE_ISLINEBREAK]). *)
Definition islinebreak (c : N) : bool :=
  (0x0A <=? c) && (c <=? 0x0D)
  || (0x1C <=? c) && (c <=? 0x1E)
  || (c =? 0x85) || (c =? 0x2028) || (c =? 0x2029).

Definition CR : N := 0x0D.
Definition LF : N := 0x0A.

(** Drop the longest prefix whose characters satisfy [p]. *)
Fixpoint dropwhile (p : N -> bool) (s : str) : str :=
  match s with
  | [] => []
  | c :: t => if p c then dropwhile p t else s
  end.

(** [s.lstrip()], [s.rstrip()], [s.strip()]: whitespace removed from
    the left end, the right end, both ends. *)
Definition lstrip (s : str) : str := dropwhile isspace s.
Definition rstrip (s : str) : str := rev (dropwhile isspace (rev s)).
Definition strip (s : str) : str := rstrip (lstrip s).

(** [c in chars] for a character [c]. *)
Definition char_in (chars : str) (c : N) : bool :=
  existsb (N.eqb c) chars.

(** [s.rstrip(chars)]: every trailing character that occurs in [chars]
    is removed. *)
Definition rstrip_chars (chars s : str) : str :=
  rev (dropwhile (char_in chars) (rev s)).

(** [s.startswith(prefix)]. *)
Fixpoint startswith (s prefix : str) {struct prefix} : bool :=
  match prefix, s with
  | [], _ => true
  | _ :: _, [] => false
  | p :: prefix', c :: s' => (c =? p) && startswith s' prefix'
  end.

(** [sub in s]: [sub] occurs in [s] as a contiguous substring. *)
Fixpoint contains (sub s : str) : bool :=
  startswith s sub ||
  match s with
  | [] => false
  | _ :: t => contains sub t
  end.

(** The text before and after the first occurrence of [sep] in [s],
    if there is one. *)
Fixpoint cut (sep s : str) : option (str * str) :=
  if startswith s sep then Some ([], drop (length sep) s)
  else match s with
       | [] => None
       | c :: t =>
           match cut sep t with
           | Some (a, b) => Some (c :: a, b)
           | None => None
           end
       end.

(** [s.split(sep, 1)] for a non-empty [sep]: at most one split, at the
    first occurrence of [sep]. *)
Definition split1 (sep s : str) : list str :=
  match cut sep s with
  | Some (a, b) => [a; b]
  | None => [s]
  end.

(** [s.splitlines()]: [cur] holds the current line, reversed.  A line
    ends at a line boundary; CR LF counts as one boundary; no empty
    line is produced after the last boundary. *)
Fixpoint splitlines_from (cur s : str) : list str :=
  match s with
  | [] => match cur with [] => [] | _ => [rev cur] end
  | c :: t =>
      if islinebreak c then
        rev cur ::
          (if c =? CR then
             match t with
             | c' :: t' =>
                 if c' =? LF then splitlines_from [] t'
                 else splitlines_from [] t
             | [] => splitlines_from [] t
             end
           else splitlines_from [] t)
      else splitlines_from (c :: cur) t
  end.

Definition splitlines (s : str) : list str := splitlines_from [] s.

(** [s[:n]]. *)
Definition slice_to (n : nat) (s : str) : str := take n s.

(** [str(n)] for an [int]. *)
Definition str_of_int (n : Z) : str :=
  lit (NilEmpty.string_of_int (Z.to_int n)).

(** [s.endswith(suffix)]. *)
Definition endswith (s suffix : str) : bool :=
  startswith (rev s) (rev suffix).

(** [urllib.parse.unwrap(url)]: the URL trimmed, taken out of a pair
    of angle brackets and freed of a leading [URL:], trimmed again
    each time. *)
Definition unwrap (url : str) : str :=
  let url := strip url in
  let url :=
    if startswith url (lit "<") && endswith url (lit ">")
    then strip (removelast (drop 1 url))
    else url in
  if startswith url (lit "URL:") then strip (drop 4 url) else url.

(** The part of a URL before its last [#], the whole URL when it has
    none: the first component of [urllib.parse._splittag(url)]. *)
Definition before_fragment (url : str) : str :=
  match cut (lit "#") (rev url) with
  | Some (_, before) => rev before
  | None => url
  end.

(** [urllib.parse._splittype(url)] finds a type: the URL begins with
    one character or more, none of them [/] or [:], followed by [:].
    [seen] tells that a character has been passed. *)
Fixpoint has_type_after (seen : bool) (url : str) : bool :=
  match url with
  | [] => false
  | c :: t =>
      if c =? 0x3A then seen
      else if c =? 0x2F then false
      else has_type_after true t
  end.

Definition has_type (url : str) : bool := has_type_after false url.

Definition upper_ascii (c : N) : N :=
  if (0x61 <=? c) && (c <=? 0x7A) then c - 0x20 else c.

Definition lower_ascii (c : N) : N :=
  if (0x41 <=? c) && (c <=? 0x5A) then c + 0x20 else c.

(** [s.capitalize()] for a text of ASCII characters, as the header
    names of the script are: the first character in upper case, the
    others in lower case.  The case of characters outside ASCII is not
    modelled: they are left as they are. *)
Definition capitalize (s : str) : str :=
  match s with
  | [] => []
  | c :: t => upper_ascii c :: map lower_ascii t
  end.

End Py.

(* ===================================================================== *)
(** ** Codecs of the standard library: [json.dumps] and UTF-8 *)
(* ===================================================================== *)

Module Codec.
Import Py.

(** The values the payloads of the script hold. *)
Inductive pyval :=
| PyInt (n : Z)
| PyStr (s : str).

(** A payload [dict]: string keys, in insertion order. *)
Abbreviation payload := (list (str * pyval)).

Definition hexdigit (d : N) : N :=
  if d <? 10 then 0x30 + d else 0x61 + (d - 10).

(** [r'\u{0:04x}'.format(n)]. *)
Definition u_escape (n : N) : str :=
  [0x5C; 0x75; hexdigit (n / 4096 mod 16); hexdigit (n / 256 mod 16);
   hexdigit (n / 16 mod 16); hexdigit (n mod 16)].

(** The replacement [json.encoder] makes for one character (with
    [ensure_ascii], the default): printable ASCII other than the quote
    and the backslash is kept; the rest is escaped, code points above
    the basic plane as a surrogate pair. *)
Definition escape_char (c : N) : str :=
  if c =? 0x22 then [0x5C; 0x22]
  else if c =? 0x5C then [0x5C; 0x5C]
  else if c =? 0x0A then [0x5C; 0x6E]
  else if c =? 0x0D then [0x5C; 0x72]
  else if c =? 0x09 then [0x5C; 0x74]
  else if c =? 0x08 then [0x5C; 0x62]
  else if c =? 0x0C then [0x5C; 0x66]
  else if (0x20 <=? c) && (c <=? 0x7E) then [c]
  else if c <? 0x10000 then u_escape c
  else
    let n := c - 0x10000 in
    u_escape (N.lor 0xD800 (N.land (N.shiftr n 10) 0x3FF))
      ++ u_escape (N.lor 0xDC00 (N.land n 0x3FF)).

Definition encode_basestring_ascii (s : str) : str :=
  [0x22] ++ flat_map escape_char s ++ [0x22].

Definition dumps_value (v : pyval) : str :=
  match v with
  | PyInt n => str_of_int n
  | PyStr s => encode_basestring_ascii s
  end.

(** [sep.join(parts)]. *)
Fixpoint join (sep : str) (parts : list str) : str :=
  match parts with
  | [] => []
  | [p] => p
  | p :: rest => p ++ sep ++ join sep rest
  end.

Definition dumps_item (kv : str * pyval) : str :=
  encode_basestring_ascii kv.1 ++ lit ": " ++ dumps_value kv.2.

(** [json.dumps(payload)] with the default separators. *)
Definition json_dumps (p : payload) : str :=
  lit "{" ++ join (lit ", ") (map dumps_item p) ++ lit "}".

(** Bytes from their numeric values; [None] if one is above 255. *)
Fixpoint mk_bytes (ns : list N) : option bytes :=
  match ns with
  | [] => Some []
  | n :: rest =>
      match Byte.of_N n, mk_bytes rest with
      | Some b, Some bs => Some (b :: bs)
      | _, _ => None
      end
  end.

(** UTF-8 encoding of one code point.  Surrogates (and values that
    are not code points) cannot be encoded. *)
Definition encode_char (c : N) : option bytes :=
  if c <? 0x80 then mk_bytes [c]
  else if c <? 0x800 then mk_bytes [0xC0 + c / 64; 0x80 + c mod 64]
  else if (0xD800 <=? c) && (c <=? 0xDFFF) then None
  else if c <? 0x10000 then
    mk_bytes [0xE0 + c / 4096; 0x80 + c / 64 mod 64; 0x80 + c mod 64]
  else if c <? 0x110000 then
    mk_bytes [0xF0 + c / 262144; 0x80 + c / 4096 mod 64;
              0x80 + c / 64 mod 64; 0x80 + c mod 64]
  else None.

(** [s.encode('utf-8')]; [None] stands for [UnicodeEncodeError]. *)
Fixpoint encode_utf8 (s : str) : option bytes :=
  match s with
  | [] => Some []
  | c :: t =>
      match encode_char c, encode_utf8 t with
      | Some b, Some bs => Some (b ++ bs)
      | _, _ => None
      end
  end.

(** Text of ASCII characters only. *)
Definition is_ascii (s : str) : Prop := Forall (λ c, c < 0x80) s.

(** A Unicode scalar value: a code point that is not a surrogate. *)
Definition is_scalar (c : N) : Prop :=
  c < 0xD800 ∨ (0xDFFF < c ∧ c < 0x110000).

Definition is_cont (b : N) : bool := (0x80 <=? b) && (b <=? 0xBF).

(** Second byte that cannot follow the lead byte [b1] of a three-byte
    or four-byte sequence (overlong forms, surrogates, values above
    U+10FFFF). *)
Definition bad_second (b1 b2 : N) : bool :=
  negb (is_cont b2)
  || (b1 =? 0xE0) && (b2 <? 0xA0)
  || (b1 =? 0xED) && (0xA0 <=? b2)
  || (b1 =? 0xF0) && (b2 <? 0x90)
  || (b1 =? 0xF4) && (0x90 <=? b2).

(** UTF-8 decoding where every byte of an ill-formed sequence is
    dropped and decoding resumes at the first byte that is not part of
    it. *)
Fixpoint decode_ignore (bs : list N) : str :=
  match bs with
  | [] => []
  | b1 :: t1 =>
      if b1 <? 0x80 then b1 :: decode_ignore t1
      else if b1 <? 0xC2 then decode_ignore t1
      else if b1 <? 0xE0 then
        match t1 with
        | [] => []
        | b2 :: t2 =>
            if is_cont b2
            then ((b1 - 0xC0) * 64 + (b2 - 0x80)) :: decode_ignore t2
            else decode_ignore t1
        end
      else if b1 <? 0xF0 then
        match t1 with
        | [] => []
        | b2 :: t2 =>
            if bad_second b1 b2 then decode_ignore t1
            else
              match t2 with
              | [] => []
              | b3 :: t3 =>
                  if is_cont b3
                  then ((b1 - 0xE0) * 4096 + (b2 - 0x80) * 64 + (b3 - 0x80))
                         :: decode_ignore t3
                  else decode_ignore t2
              end
        end
      else if b1 <? 0xF5 then
        match t1 with
        | [] => []
        | b2 :: t2 =>
            if bad_second b1 b2 then decode_ignore t1
            else
              match t2 with
              | [] => []
              | b3 :: t3 =>
                  if is_cont b3 then
                    match t3 with
                    | [] => []
                    | b4 :: t4 =>
                        if is_cont b4
                        then ((b1 - 0xF0) * 262144 + (b2 - 0x80) * 4096
                              + (b3 - 0x80) * 64 + (b4 - 0x80))
                               :: decode_ignore t4
                        else decode_ignore t3
                    end
                  else decode_ignore t2
              end
        end
      else decode_ignore t1
  end.

(** [b.decode('utf-8', 'ignore')]. *)
Definition decode_utf8_ignore (b : bytes) : str :=
  decode_ignore (map Byte.to_N b).

End Codec.

(* ===================================================================== *)
(** ** The world the script runs in *)
(* ===================================================================== *)

Module World.
Import Py.

(** What a [urllib.request.Request] handed to [urlopen] holds: the URL
    as the script gives it to the constructor, the body, the method
    and the [headers] dictionary, in the order of insertion. *)
Record Request := {
  full_url : str;
  data : bytes;
  method : str;
  headers : list (str * str)
}.

(** The part of an [http.client.HTTPResponse] the script reads:
    [resp.status] and [resp.read()]. *)
Record response := {
  status : Z;
  content : bytes
}.

(** A path of the file system: absent, a text file that [read_text]
    returns, or an entry that exists and whose reading raises. *)
Inductive file :=
| Missing
| Regular (text : str)
| Unreadable (e : exception).

(** The surroundings of one run.  [server history req timeout] is the
    outcome of [urlopen(req, timeout=timeout)], including the reading
    of the body, after the requests of [history]: a response, or the
    exception raised ([HTTPError] for an error status; [URLError],
    [TimeoutError] ... when no response arrives). *)
Record world := {
  files : str -> file;
  server : list Request -> Request -> Z -> result response
}.

(** What a run changes: the lines printed and the requests handed to
    [urlopen], oldest first. *)
Record state := {
  stdout : list str;
  sent : list Request
}.

Definition initial : state := {| stdout := []; sent := [] |}.

(** Computations of the script: they read the world, change the state
    and return or raise.  The state survives a raise. *)
Definition M (A : Type) : Type := world -> state -> result A * state.

#[export] Instance M_ret : MRet M := fun A a _ s => (Ok a, s).

#[export] Instance M_bind : MBind M := fun A B f c w s =>
  match c w s with
  | (Ok a, s') => f a w s'
  | (Raise e, s') => (Raise e, s')
  end.

Definition raise {A} (e : exception) : M A := fun _ s => (Raise e, s).

Definition lift {A} (r : result A) : M A := fun _ s => (r, s).

(** [try: body / except ...: handler]: [handler e] is [None] when no
    [except] clause matches [e], which then propagates. *)
Definition try_except {A} (body : M A) (handler : exception -> option (M A))
  : M A := fun w s =>
  match body w s with
  | (Ok a, s') => (Ok a, s')
  | (Raise e, s') =>
      match handler e with
      | Some h => h w s'
      | None => (Raise e, s')
      end
  end.

(** [print(x)]: one more line on standard output; writing to it is
    taken to succeed. *)
Definition print (x : str) : M unit := fun _ s =>
  (Ok tt, {| stdout := stdout s ++ [x]; sent := sent s |}).

(** [Path(p).exists()]. *)
Definition path_exists (p : str) : M bool := fun w s =>
  (Ok match files w p with Missing => false | _ => true end, s).

(** [Path(p).read_text()]. *)
Definition read_text (p : str) : M str := fun w s =>
  (match files w p with
   | Regular text => Ok text
   | Missing => Raise (OSError "No such file or directory")
   | Unreadable e => Raise e
   end, s).

(** [urllib.request.urlopen(req, timeout=t)] followed by the reading of
    the body. *)
Definition urlopen (req : Request) (t : Z) : M response := fun w s =>
  (server w (sent s) req t,
   {| stdout := stdout s; sent := sent s ++ [req] |}).

(** The checks of a URL that [urllib.request.Request] makes beyond
    the reading of its type and that vary with the version of the
    library (those of [urlparse] on the host part): [rejects url] is
    the exception the constructor raises for [url], [None] when it
    accepts it. *)
Class Urllib := { rejects : str -> option exception }.

(** What [urllib.request.Request(url, ...)] raises, if it raises:
    [ValueError] when no type can be read off the unwrapped URL before
    its fragment, as for a URL without a scheme (its message, which
    quotes the URL, is cut short here); otherwise what the further
    checks raise. *)
Definition request_error `{Urllib} (url : str) : option exception :=
  if has_type (before_fragment (unwrap url)) then rejects url
  else Some (ValueError "unknown url type").

(** [urllib.request.Request(url, data=data, method=method)]. *)
Definition new_request `{Urllib} (url : str) (data : bytes) (method : str)
  : M Request := fun _ s =>
  match request_error url with
  | Some e => (Raise e, s)
  | None =>
      (Ok {| full_url := url; data := data; method := method;
             headers := [] |}, s)
  end.

(** [d[k] = v] on a dictionary kept in the order of insertion. *)
Fixpoint set_item (k v : str) (d : list (str * str)) : list (str * str) :=
  match d with
  | [] => [(k, v)]
  | (k', v') :: rest =>
      if decide (k' = k) then (k, v) :: rest
      else (k', v') :: set_item k v rest
  end.

(** [req.add_header(key, val)]: the value is stored under the
    capitalised name. *)
Definition add_header (req : Request) (key val : str) : Request :=
  {| full_url := full_url req; data := data req; method := method req;
     headers := set_item (capitalize key) val (headers req) |}.

End World.

(* ===================================================================== *)
(** ** The script *)
(* ===================================================================== *)

Module Script.
Import Py Codec World.

(** *** [load_env] *)

(** [not s] for a [str]. *)
Definition is_empty (s : str) : bool :=
  match s with [] => true | _ => false end.

(** One turn of the loop of [load_env] over the line [line], from the
    mapping [env]. *)
Definition load_env_line (env : gmap str str) (line : str)
  : result (gmap str str) :=
  let s := strip line in
  if is_empty s || startswith s (lit "#") || negb (contains (lit "=") s)
  then Ok env
  else
    match split1 (lit "=") s with
    | [k; v] => Ok (<[strip k := strip v]> env)
    | _ => Raise (ValueError "not enough values to unpack")
    end.

(** The loop of [load_env], from the mapping [env]. *)
Fixpoint load_env_lines (env : gmap str str) (lines : list str)
  : result (gmap str str) :=
  match lines with
  | [] => Ok env
  | line :: rest =>
      match load_env_line env line with
      | Ok env' => load_env_lines env' rest
      | Raise e => Raise e
      end
  end.

(** [load_env] once the text of the file is read. *)
Definition load_env_text (text : str) : result (gmap str str) :=
  load_env_lines ∅ (splitlines text).

Definition load_env (path : str) : M (gmap str str) :=
  text ← read_text path;
  lift (load_env_text text).

(** *** [call_rpc] *)

Definition rpc_path : str := lit "/rest/v1/rpc/record_test_and_sync_stats".

(** The endpoint [call_rpc] builds from the base URL. *)
Definition endpoint (url : str) : str :=
  rstrip_chars (lit "/") url ++ rpc_path.

(** The request [call_rpc] builds, given the encoded payload, when
    the constructor accepts the endpoint. *)
Definition build_request (url key : str) (body : bytes) : Request :=
  let req := {| full_url := endpoint url; data := body;
                method := lit "POST"; headers := [] |} in
  let req := add_header req (lit "apikey") key in
  let req := add_header req (lit "Authorization") (lit "Bearer " ++ key) in
  add_header req (lit "Content-Type") (lit "application/json").

Section Urllib.
Context {U : Urllib}.

Definition call_rpc (url key : str) (payload : payload) : M (Z * str) :=
  let endpoint := endpoint url in
  body ← match encode_utf8 (json_dumps payload) with
         | Some b => mret b
         | None => raise UnicodeEncodeError
         end;
  req ← new_request endpoint body (lit "POST");
  let req := add_header req (lit "apikey") key in
  let req := add_header req (lit "Authorization") (lit "Bearer " ++ key) in
  let req := add_header req (lit "Content-Type") (lit "application/json") in
  try_except
    (resp ← urlopen req 20;
     let body := decode_utf8_ignore (content resp) in
     mret (status resp, body))
    (fun e =>
       match e with
       | HTTPError code raw =>
           Some (let body := decode_utf8_ignore raw in mret (code, body))
       | _ => None
       end).

(** *** [main] *)

Definition msg_no_env : str :=
  [0x274C] ++ lit " .env not found".
Definition msg_no_keys : str :=
  [0x274C] ++ lit " SUPABASE_URL or SUPABASE_ANON_KEY missing in .env".
Definition msg_step1 : str :=
  lit "== Step 1: Reachability / function existence check ==".
Definition phrase_not_found : str :=
  lit "Could not find the function public.record_test_and_sync_stats".
Definition msg_not_deployed : str :=
  [0x274C] ++ lit " RPC function signature not deployed as expected".
Definition msg_callable : str :=
  [0x2705] ++ lit " RPC endpoint exists and signature is callable".
Definition msg_step2 : str :=
  [LF] ++ lit "== Step 2: Historical-date rejection check (server-side guard) ==".
Definition phrase_guard : str :=
  lit "Cannot modify historical stats for date".
Definition msg_guard_active : str :=
  [0x2705] ++ lit " Historical-write guard is active at DB layer".
Definition msg_inconclusive : str :=
  [0x26A0; 0xFE0F] ++ lit " Could not prove historical-write guard via anon key path".
Definition msg_caveat : str :=
  lit "   Reason: anon calls may fail before business guard due to auth/RLS constraints.".

Definition payload1 : payload :=
  [(lit "p_test_count", PyInt 1);
   (lit "p_correct_count", PyInt 1);
   (lit "p_points", PyInt 1);
   (lit "p_timezone_offset_hours", PyInt 8);
   (lit "p_client_date", PyStr (lit "2026-02-14"));
   (lit "p_expected_version", PyInt 0)].

Definition payload2 : payload :=
  [(lit "p_test_date", PyStr (lit "2026-02-13"));
   (lit "p_test_count", PyInt 1);
   (lit "p_correct_count", PyInt 1);
   (lit "p_points", PyInt 1);
   (lit "p_timezone_offset_hours", PyInt 8);
   (lit "p_client_date", PyStr (lit "2026-02-13"));
   (lit "p_expected_version", PyInt 0)].

(** The two checks of [main], once [url] and [anon_key] are known to be
    non-empty strings. *)
Definition checks (url anon_key : str) : M unit :=
  _ ← print msg_step1;
  '(status, body) ← call_rpc url anon_key payload1;
  _ ← print (lit "HTTP " ++ str_of_int status);
  _ ← print (slice_to 600 body);
  _ ← (if contains phrase_not_found body
       then print msg_not_deployed
       else print msg_callable);
  _ ← print msg_step2;
  '(status2, body2) ← call_rpc url anon_key payload2;
  _ ← print (lit "HTTP " ++ str_of_int status2);
  _ ← print (slice_to 600 body2);
  if contains phrase_guard body2
  then print msg_guard_active
  else (_ ← print msg_inconclusive; print msg_caveat).

(** [env.get(k)] is [None] or a [str]; [not x] holds for [None] and for
    the empty string. *)
Definition main : M unit :=
  let env_path := lit ".env" in
  found ← path_exists env_path;
  if negb found then print msg_no_env
  else
    env ← load_env env_path;
    let url := env !! lit "SUPABASE_URL" in
    let anon_key := env !! lit "SUPABASE_ANON_KEY" in
    match url, anon_key with
    | Some url, Some anon_key =>
        if is_empty url || is_empty anon_key then print msg_no_keys
        else checks url anon_key
    | _, _ => print msg_no_keys
    end.

(** A run of the script: [main] from the initial state. *)
Definition run (w : world) : result unit * state := main w initial.

(** The request [call_rpc url key payload] hands to [urlopen]; there
    is none when the constructor raises. *)
Definition rpc_request (url key : str) (payload : payload)
  : option Request :=
  match request_error (endpoint url) with
  | Some _ => None
  | None => build_request url key <$> encode_utf8 (json_dumps payload)
  end.

(** What [call_rpc url key payload] returns or raises when the
    requests of [history] went before. *)
Definition reply (w : world) (history : list Request)
    (url key : str) (payload : payload) : result (Z * str) :=
  (call_rpc url key payload w {| stdout := []; sent := history |}).1.


End Urllib.

(** *** Vocabulary of the properties *)

(** The entry a line of the file defines, if it is a [KEY=VALUE] line:
    its trimmed form is not a comment and holds an [=]; the key is the
    trimmed text before the first [=], the value the trimmed text after
    it. *)
Definition key_value (line : str) : option (str * str) :=
  let s := strip line in
  if startswith s (lit "#") then None
  else
    match cut (lit "=") s with
    | Some (k, v) => Some (strip k, strip v)
    | None => None
    end.

(** The entries and the keys of a file, in the order of its lines. *)
Definition entries (text : str) : list (str * str) :=
  omap key_value (splitlines text).

Definition keys (text : str) : list str := (entries text).*1.

(** The update one entry makes to the mapping. *)
Definition add (env : gmap str str) (kv : str * str) : gmap str str :=
  <[kv.1 := kv.2]> env.

(** The [.env] file of [w] can be read and gives [url] and [key], both
    non-empty, for the two names [main] looks up. *)
Definition configured (w : world) (url key : str) : Prop :=
  ∃ text env,
    files w (lit ".env") = Regular text ∧
    load_env_text text = Ok env ∧
    env !! lit "SUPABASE_URL" = Some url ∧ url ≠ [] ∧
    env !! lit "SUPABASE_ANON_KEY" = Some key ∧ key ≠ [].


(** An exception other than [HTTPError]: the handler of [call_rpc]
    lets it pass. *)
Definition no_response (e : exception) : Prop :=
  match e with
  | HTTPError _ _ => False
  | _ => True
  end.

End Script.

(* ===================================================================== *)
(** ** Sample files and servers *)
(* ===================================================================== *)

Module Samples.
Import Py Codec World Script.

(** A file of three lines, the second a padded assignment. *)
Definition sample_text : str :=
  lit "A=1" ++ [LF] ++ lit "  B = 2=3  " ++ [CR; LF] ++ lit "# note" ++ [LF].

(** A file system whose only entry is [.env], with the given text. *)
Definition dotenv (text : str) : str -> file := fun p =>
  if decide (p = lit ".env") then Regular text else Missing.

Definition full_env : str :=
  lit "# supabase" ++ [LF] ++
  lit "SUPABASE_URL=https://x.test/" ++ [LF] ++
  lit "SUPABASE_ANON_KEY = anon" ++ [LF].

Definition url_only_env : str := lit "SUPABASE_URL=https://x.test".

Definition body_ok : bytes := list_byte_of_string "[]".
Definition body_guard : bytes :=
  list_byte_of_string "{'message': 'Cannot modify historical stats for date 2026-02-13'}".
Definition body_not_found : bytes :=
  list_byte_of_string "{'message': 'Could not find the function public.record_test_and_sync_stats(p_points) in the schema cache'}".
Definition body_denied : bytes :=
  list_byte_of_string "{'message': 'permission denied'}".

(** A server that answers the first request with [first] and every
    later one with [later]. *)
Definition two_step (first later : result response)
  : list Request -> Request -> Z -> result response := fun history _ _ =>
  match history with
  | [] => first
  | _ :: _ => later
  end.

(** For the runs of the samples: the further checks of [urllib]
    accept the URLs of the samples. *)
Definition lenient : Urllib := {| rejects := fun _ => None |}.

(** No [.env] file at all. *)
Definition no_env : world :=
  {| files := fun _ => Missing;
     server := fun _ _ _ => Raise (URLError "unreachable") |}.

(** A [.env] file without the access key. *)
Definition url_only : world :=
  {| files := dotenv url_only_env;
     server := fun _ _ _ => Raise (URLError "unreachable") |}.

(** The function is deployed and the guard rejects the historical
    write. *)
Definition guarded : world :=
  {| files := dotenv full_env;
     server := two_step (Ok {| status := 200; content := body_ok |})
                        (Raise (HTTPError 400 body_guard)) |}.

(** The function is not deployed. *)
Definition undeployed : world :=
  {| files := dotenv full_env;
     server := two_step (Raise (HTTPError 404 body_not_found))
                        (Raise (HTTPError 404 body_not_found)) |}.

(** The access layer rejects the anonymous call before the guard. *)
Definition denied : world :=
  {| files := dotenv full_env;
     server := two_step (Ok {| status := 200; content := body_ok |})
                        (Raise (HTTPError 401 body_denied)) |}.

(** The server cannot be reached. *)
Definition offline : world :=
  {| files := dotenv full_env;
     server := fun _ _ _ => Raise (URLError "Connection refused") |}.

(** [.env] exists and cannot be read: it is a directory. *)
Definition locked : world :=
  {| files := fun p =>
       if decide (p = lit ".env") then Unreadable (OSError "Is a directory")
       else Missing;
     server := fun _ _ _ => Raise (URLError "unreachable") |}.

(** The server answers both calls with the UTF-8 bytes of a text that
    holds characters of one to four bytes. *)
Definition body_unicode : str := [0x41; 0xE9; 0x20AC; 0x1F600].

Definition echo : world :=
  {| files := dotenv full_env;
     server := fun _ _ _ =>
       match encode_utf8 body_unicode with
       | Some b => Ok {| status := 200; content := b |}
       | None => Raise (ValueError "unencodable")
       end |}.

(** A good URL, then the key, then the URL assigned again, empty. *)
Definition override_env : str :=
  lit "SUPABASE_URL=https://x.test" ++ [LF] ++
  lit "SUPABASE_ANON_KEY=anon" ++ [LF] ++
  lit "SUPABASE_URL=".

Definition overridden : world :=
  {| files := dotenv override_env;
     server := fun _ _ _ => Raise (URLError "unreachable") |}.

(** Both names are given, the URL without a scheme; the server would
    answer every request. *)
Definition schemeless_env : str :=
  lit "SUPABASE_URL=x.test" ++ [LF] ++ lit "SUPABASE_ANON_KEY=anon" ++ [LF].

Definition schemeless : world :=
  {| files := dotenv schemeless_env;
     server := two_step (Ok {| status := 200; content := body_ok |})
                        (Raise (HTTPError 400 body_guard)) |}.

(** The first call answers, the second times out. *)
Definition half_way : world :=
  {| files := dotenv full_env;
     server := two_step (Ok {| status := 200; content := body_ok |})
                        (Raise TimeoutError) |}.

End Samples.

(* ===================================================================== *)
(** ** Facts about the string methods *)
(* ===================================================================== *)

Module StrFacts.
Import Py.

Lemma dropwhile_split p s :
  ∃ pre, s = pre ++ dropwhile p s ∧ forallb p pre = true.
Proof.
  induction s as [|c t [pre [Ht Hp]]]; simpl.
  - by exists [].
  - destruct (p c) eqn:Hc.
    + exists (c :: pre). simpl. rewrite Hc, Hp. by rewrite <- Ht.
    + by exists [].
Qed.

Lemma dropwhile_head p s c t : dropwhile p s = c :: t → p c = false.
Proof.
  induction s as [|d s IH]; simpl; [done|].
  destruct (p d) eqn:Hd; [done|]. by intros [= <- _].
Qed.

Lemma dropwhile_all p s : forallb p s = true → dropwhile p s = [].
Proof.
  induction s as [|c t IH]; simpl; [done|].
  intros [Hc Ht]%andb_prop. by rewrite Hc, IH.
Qed.

Lemma dropwhile_app_all p s t :
  forallb p s = true → dropwhile p (s ++ t) = dropwhile p t.
Proof.
  induction s as [|c s IH]; simpl; [done|].
  intros [Hc Hs]%andb_prop. by rewrite Hc, IH.
Qed.

Lemma dropwhile_snoc p s c :
  p c = false → dropwhile p (s ++ [c]) = dropwhile p s ++ [c].
Proof.
  intros Hc. induction s as [|d s IH]; simpl.
  - by rewrite Hc.
  - by destruct (p d).
Qed.

Lemma dropwhile_elem p s x : x ∈ dropwhile p s → x ∈ s.
Proof.
  destruct (dropwhile_split p s) as [pre [Hs _]].
  intros Hx. rewrite Hs. apply elem_of_app. by right.
Qed.

Lemma forallb_rev {A} (p : A → bool) (l : list A) :
  forallb p (rev l) = forallb p l.
Proof.
  induction l as [|a l IH]; simpl; [done|].
  rewrite forallb_app, IH. simpl. destruct (p a), (forallb p l); done.
Qed.

Lemma elem_rev {A} (l : list A) x : x ∈ rev l ↔ x ∈ l.
Proof. rewrite !list_elem_of_In. symmetry. apply in_rev. Qed.

(** Trimming keeps only characters of the string. *)
Lemma strip_elem s x : x ∈ strip s → x ∈ s.
Proof.
  unfold strip, rstrip, lstrip. intros Hx.
  apply elem_rev, dropwhile_elem, elem_rev, dropwhile_elem in Hx.
  done.
Qed.

(** A string of whitespace trims to the empty string. *)
Lemma strip_blank s : forallb isspace s = true → strip s = [].
Proof.
  intros Hs. unfold strip, rstrip, lstrip.
  by rewrite (dropwhile_all _ _ Hs).
Qed.

(** Trimming keeps a first character that is not whitespace. *)
Lemma strip_head c t :
  isspace c = false → ∃ t', strip (c :: t) = c :: t'.
Proof.
  intros Hc. unfold strip, rstrip, lstrip. simpl. rewrite Hc. simpl.
  rewrite (dropwhile_snoc _ _ _ Hc), rev_app_distr. simpl. eauto.
Qed.


Lemma contains_char c s : contains [c] s = true ↔ c ∈ s.
Proof.
  induction s as [|d t IH]; simpl.
  - split; [done|]. by intros ?%elem_of_nil.
  - rewrite andb_true_r, orb_true_iff, N.eqb_eq, IH, elem_of_cons.
    split; intros [?|?]; auto.
Qed.

Lemma contains_char_false c s : contains [c] s = false ↔ c ∉ s.
Proof.
  rewrite <- contains_char. destruct (contains [c] s); naive_solver.
Qed.

(** Cutting at a one-character separator finds its first occurrence. *)
Lemma cut_char c k v : c ∉ k → cut [c] (k ++ c :: v) = Some (k, v).
Proof.
  induction k as [|d k IH]; simpl; intros Hk.
  - by rewrite N.eqb_refl.
  - apply not_elem_of_cons in Hk as [Hd Hk].
    rewrite andb_true_r. destruct (N.eqb_spec d c) as [->|_]; [done|].
    by rewrite IH.
Qed.

Lemma cut_char_None c s : c ∉ s → cut [c] s = None.
Proof.
  induction s as [|d t IH]; simpl; [done|].
  intros [Hd Ht]%not_elem_of_cons.
  rewrite andb_true_r. destruct (N.eqb_spec d c) as [->|_]; [done|].
  by rewrite IH.
Qed.

Lemma cut_char_Some c s k v :
  cut [c] s = Some (k, v) → s = k ++ c :: v ∧ c ∉ k.
Proof.
  revert k. induction s as [|d t IH]; simpl; [done|]. intros k.
  rewrite andb_true_r. destruct (N.eqb_spec d c) as [->|Hd].
  - intros [= <- <-]. split; [done|]. apply not_elem_of_nil.
  - destruct (cut [c] t) as [[a b]|] eqn:Hcut; [|done].
    intros [= <- <-]. destruct (IH a eq_refl) as [-> Ha].
    split; [done|]. apply not_elem_of_cons. by split; [congruence|].
Qed.

(** [s.rstrip(chars)] removes a run of characters of [chars] at the
    end, and what is left does not end in one. *)
Lemma rstrip_chars_split chars s :
  ∃ tail, s = rstrip_chars chars s ++ tail ∧
          forallb (char_in chars) tail = true.
Proof.
  unfold rstrip_chars.
  destruct (dropwhile_split (char_in chars) (rev s)) as [pre [Hs Hp]].
  exists (rev pre). split.
  - rewrite <- rev_app_distr, <- Hs. by rewrite rev_involutive.
  - by rewrite forallb_rev.
Qed.

Lemma rstrip_chars_last chars s c :
  last (rstrip_chars chars s) = Some c → char_in chars c = false.
Proof.
  unfold rstrip_chars.
  destruct (dropwhile (char_in chars) (rev s)) as [|d t] eqn:Hd; simpl.
  - done.
  - rewrite last_snoc. intros [= <-]. by apply dropwhile_head in Hd.
Qed.

Lemma rstrip_chars_app_all chars s tail :
  forallb (char_in chars) tail = true →
  rstrip_chars chars (s ++ tail) = rstrip_chars chars s.
Proof.
  intros Ht. unfold rstrip_chars.
  rewrite rev_app_distr, dropwhile_app_all; [done|].
  by rewrite forallb_rev.
Qed.

Lemma forallb_repeat {A} (p : A → bool) (a : A) (n : nat) :
  p a = true → forallb p (repeat a n) = true.
Proof. intros Ha. induction n as [|n IH]; simpl; [done|]. by rewrite Ha, IH. Qed.

End StrFacts.

(* ===================================================================== *)
(** ** Properties of [load_env] *)
(* ===================================================================== *)

Module EnvProps.
Import Py World Script Samples StrFacts.

Lemma lit_eq : lit "=" = [0x3D].
Proof. reflexivity. Qed.

Lemma lit_hash : lit "#" = [0x23].
Proof. reflexivity. Qed.

(** One turn of the loop never raises: it adds the entry of the line,
    if the line defines one. *)
Lemma load_env_line_key_value env line :
  load_env_line env line =
  Ok (match key_value line with Some kv => add env kv | None => env end).
Proof.
  unfold load_env_line, key_value, split1. rewrite lit_eq, lit_hash.
  destruct (strip line) as [|c s] eqn:Hs; [done|]. cbn [is_empty orb].
  destruct (startswith (c :: s) [35]); [done|]. cbn [orb].
  destruct (contains [61] (c :: s)) eqn:Hc; cbn [negb].
  - apply contains_char, list_elem_of_split_l in Hc as (k & v & -> & Hk).
    by rewrite (cut_char _ _ _ Hk).
  - apply contains_char_false in Hc. by rewrite (cut_char_None _ _ Hc).
Qed.

Lemma load_env_lines_fold env lines :
  load_env_lines env lines = Ok (foldl add env (omap key_value lines)).
Proof.
  revert env. induction lines as [|l lines IH]; intros env; simpl; [done|].
  rewrite load_env_line_key_value, IH.
  by destruct (key_value l).
Qed.

Lemma load_env_lines_app env pre rest :
  load_env_lines env (pre ++ rest) =
  load_env_lines (foldl add env (omap key_value pre)) rest.
Proof. by rewrite !load_env_lines_fold, omap_app, foldl_app. Qed.

(** The entry of a line whose trimmed form is [k=v], with no [=] in
    [k] and no [#] in front. *)
Lemma key_value_assignment line k v :
  strip line = k ++ lit "=" ++ v →
  contains (lit "=") k = false →
  startswith (strip line) (lit "#") = false →
  key_value line = Some (strip k, strip v).
Proof.
  rewrite lit_eq. intros Hs Hk%contains_char_false Hh.
  unfold key_value. rewrite Hh, lit_eq, Hs. simpl.
  by rewrite (cut_char _ _ _ Hk).
Qed.

(** An entry comes from a line of that form only. *)
Lemma key_value_inv line k' v' :
  key_value line = Some (k', v') →
  ∃ k v,
    strip line = k ++ lit "=" ++ v ∧
    contains (lit "=") k = false ∧
    startswith (strip line) (lit "#") = false ∧
    k' = strip k ∧ v' = strip v.
Proof.
  unfold key_value. rewrite lit_eq.
  destruct (startswith (strip line) (lit "#")); [done|].
  destruct (cut [61] (strip line)) as [[k v]|] eqn:Hcut; [|done].
  intros [= <- <-]. apply cut_char_Some in Hcut as [Hs Hk].
  exists k, v. by rewrite contains_char_false.
Qed.


(** The domain and the size of the mapping a list of entries builds. *)
Lemma dom_foldl_add env (es : list (str * str)) :
  dom (foldl add env es) = list_to_set es.*1 ∪ dom env.
Proof.
  revert env. induction es as [|e es IH]; intros env; simpl.
  - by rewrite (left_id_L ∅ (∪)).
  - rewrite IH. unfold add. rewrite dom_insert_L.
    by rewrite (assoc_L (∪)), (comm_L (∪) (list_to_set _)).
Qed.

Lemma size_list_to_set_dups (l : list str) :
  size (list_to_set l : gset str) = length (remove_dups l).
Proof.
  rewrite <- (size_list_to_set (C:=gset str) (remove_dups l))
    by apply NoDup_remove_dups.
  f_equal. apply set_eq. intros x.
  by rewrite !elem_of_list_to_set, elem_of_remove_dups.
Qed.

Lemma remove_dups_NoDup (l : list str) : NoDup l → remove_dups l = l.
Proof.
  induction 1 as [|x l Hx Hl IH]; simpl; [done|].
  destruct (decide_rel (∈) x l); [done|]. by rewrite IH.
Qed.

Lemma size_foldl_add (es : list (str * str)) :
  size (foldl add ∅ es) = length (remove_dups es.*1).
Proof.
  rewrite <- size_dom, dom_foldl_add, dom_empty_L, (right_id_L ∅ (∪)).
  apply size_list_to_set_dups.
Qed.

(** Entries for other keys leave the value of a key alone. *)
Lemma lookup_foldl_add_notin env (es : list (str * str)) k :
  k ∉ es.*1 → foldl add env es !! k = env !! k.
Proof.
  revert env. induction es as [|e es IH]; intros env; simpl; [done|].
  intros [Hk Hes]%not_elem_of_cons.
  rewrite IH by done. unfold add. by rewrite lookup_insert_ne.
Qed.

Lemma lookup_foldl_add_last env (pre post : list (str * str)) k v :
  k ∉ post.*1 → foldl add env (pre ++ (k, v) :: post) !! k = Some v.
Proof.
  intros Hk. rewrite foldl_app. simpl.
  rewrite lookup_foldl_add_notin by done.
  unfold add. simpl. by rewrite lookup_insert_eq.
Qed.


(** C7: the mapping [load_env] returns has one entry per distinct key
    of the file, so N entries for a file of N distinct keys, and every
    key is mapped to the value of its last line. *)
Theorem load_env_size_last text :
  ∃ env,
    load_env_text text = Ok env ∧
    size env = length (remove_dups (keys text)) ∧
    (NoDup (keys text) → size env = length (keys text)) ∧
    (∀ pre k v post,
       entries text = pre ++ (k, v) :: post →
       k ∉ post.*1 →
       env !! k = Some v).
Proof.
  exists (foldl add ∅ (entries text)). unfold load_env_text, keys.
  split; [apply load_env_lines_fold|].
  split; [apply size_foldl_add|]. split.
  - intros Hnd. by rewrite size_foldl_add, remove_dups_NoDup.
  - intros pre k v post -> Hk. by apply lookup_foldl_add_last.
Qed.

(** C9: a line whose trimmed form begins with [=] is not skipped:
    [load_env] maps the empty string to the trimmed text after that
    [=], and when the line is the last one the mapping returned holds
    the empty key. *)
Theorem load_env_empty_key text pre line rest v :
  splitlines text = pre ++ line :: rest →
  strip line = lit "=" ++ v →
  ∃ env0,
    load_env_lines ∅ pre = Ok env0 ∧
    load_env_text text = load_env_lines (<[[] := strip v]> env0) rest ∧
    (rest = [] →
     ∃ env, load_env_text text = Ok env ∧ env !! [] = Some (strip v)).
Proof.
  intros Hlines Hs.
  assert (key_value line = Some ([], strip v)) as Hkv.
  { apply (key_value_assignment line [] v); [done..|]. by rewrite Hs. }
  exists (foldl add ∅ (omap key_value pre)).
  split; [apply load_env_lines_fold|].
  assert (load_env_text text =
          load_env_lines (<[[] := strip v]> (foldl add ∅ (omap key_value pre))) rest)
    as Heq.
  { unfold load_env_text. rewrite Hlines, load_env_lines_app. simpl.
    by rewrite load_env_line_key_value, Hkv. }
  split; [done|]. intros ->. eexists. split; [by rewrite Heq|].
  by rewrite lookup_insert_eq.
Qed.


Lemma load_env_size_last_witness :
  (∃ env,
     load_env_text (lit "A=1" ++ [LF] ++ lit "B=2" ++ [LF] ++ lit "A=3") = Ok env ∧
     size env = 2%nat ∧
     env !! lit "A" = Some (lit "3")) ∧
  (∃ env,
     load_env_text (lit "A=1" ++ [LF] ++ lit "B=2" ++ [LF] ++ lit "C=3") = Ok env ∧
     size env = 3%nat).
Proof.
  split.
  - destruct (load_env_size_last
                (lit "A=1" ++ [LF] ++ lit "B=2" ++ [LF] ++ lit "A=3"))
      as (env & Henv & Hsize & _ & Hlast).
    exists env. split; [exact Henv|]. split; [exact Hsize|].
    apply (Hlast [(lit "A", lit "1"); (lit "B", lit "2")]
             (lit "A") (lit "3") []).
    + reflexivity.
    + apply not_elem_of_nil.
  - destruct (load_env_size_last
                (lit "A=1" ++ [LF] ++ lit "B=2" ++ [LF] ++ lit "C=3"))
      as (env & Henv & _ & Hsize & _).
    exists env. split; [exact Henv|]. apply Hsize.
    vm_compute. apply NoDup_ListNoDup.
    repeat (constructor; [simpl; intuition congruence|]). constructor.
Defined.

Lemma load_env_empty_key_witness :
  ∃ env,
    load_env_text (lit "A=1" ++ [LF] ++ lit " =value ") = Ok env ∧
    env !! [] = Some (lit "value").
Proof.
  destruct (load_env_empty_key (lit "A=1" ++ [LF] ++ lit " =value ")
              [lit "A=1"] (lit " =value ") [] (lit "value") eq_refl eq_refl)
    as (env0 & _ & _ & Hlast).
  exact (Hlast eq_refl).
Defined.

End EnvProps.

(* ===================================================================== *)
(** ** Facts about the codecs *)
(* ===================================================================== *)

Module CodecFacts.
Import Py Codec.

Lemma is_ascii_app s t : is_ascii s → is_ascii t → is_ascii (s ++ t).
Proof. apply Forall_app_2. Qed.

Lemma string_of_uint_ascii d : is_ascii (lit (NilEmpty.string_of_uint d)).
Proof.
  unfold lit, is_ascii.
  induction d; simpl; try (constructor; [reflexivity | assumption]).
  constructor.
Qed.

Lemma str_of_int_ascii n : is_ascii (str_of_int n).
Proof.
  unfold str_of_int. destruct (Z.to_int n) as [d|d]; simpl.
  - apply string_of_uint_ascii.
  - constructor; [reflexivity | apply string_of_uint_ascii].
Qed.

Lemma hexdigit_ascii d : d < 16 → hexdigit d < 0x80.
Proof. unfold hexdigit. intros Hd. destruct (N.ltb_spec d 10); lia. Qed.

Lemma u_escape_ascii n : is_ascii (u_escape n).
Proof.
  unfold u_escape.
  repeat (constructor; [first [reflexivity | apply hexdigit_ascii, N.mod_lt; lia]|]).
  constructor.
Qed.

Lemma escape_char_ascii c : is_ascii (escape_char c).
Proof.
  unfold escape_char.
  repeat (destruct (_ =? _);
          [repeat (constructor; [reflexivity|]); constructor|]).
  destruct ((0x20 <=? c) && (c <=? 0x7E)) eqn:Hp.
  - apply andb_prop in Hp as [_ Hhi%N.leb_le].
    constructor; [lia | constructor].
  - destruct (c <? 0x10000).
    + apply u_escape_ascii.
    + apply is_ascii_app; apply u_escape_ascii.
Qed.

Lemma encode_basestring_ascii_ascii s : is_ascii (encode_basestring_ascii s).
Proof.
  unfold encode_basestring_ascii.
  apply is_ascii_app; [by repeat constructor|].
  apply is_ascii_app; [|by repeat constructor].
  induction s as [|c s IH]; simpl; [constructor|].
  apply is_ascii_app; [apply escape_char_ascii | exact IH].
Qed.

Lemma join_ascii sep parts :
  is_ascii sep → Forall is_ascii parts → is_ascii (join sep parts).
Proof.
  intros Hsep. induction 1 as [|p parts Hp Hparts IH]; simpl; [constructor|].
  destruct parts as [|q parts]; [done|].
  apply is_ascii_app; [done|]. by apply is_ascii_app.
Qed.

(** [json.dumps] returns ASCII text. *)
Lemma json_dumps_ascii p : is_ascii (json_dumps p).
Proof.
  unfold json_dumps.
  apply is_ascii_app; [by repeat constructor|].
  apply is_ascii_app; [|by repeat constructor].
  apply join_ascii; [by repeat constructor|].
  apply Forall_map, Forall_forall. intros [k v] _. unfold dumps_item. cbn [fst snd].
  apply is_ascii_app; [apply encode_basestring_ascii_ascii|].
  apply is_ascii_app; [by repeat constructor|].
  destruct v; simpl; [apply str_of_int_ascii|apply encode_basestring_ascii_ascii].
Qed.

(** ASCII text can be encoded. *)
Lemma encode_utf8_ascii s : is_ascii s → is_Some (encode_utf8 s).
Proof.
  induction 1 as [|c s Hc Hs [bs IH]]; simpl; [by eexists|].
  unfold encode_char. destruct (N.ltb_spec c 0x80); [|lia]. simpl.
  destruct (Byte.of_N c) as [b|] eqn:Hb.
  - rewrite IH. by eexists.
  - apply Byte.of_N_None_iff in Hb. lia.
Qed.

Lemma encode_json_dumps p : is_Some (encode_utf8 (json_dumps p)).
Proof. apply encode_utf8_ascii, json_dumps_ascii. Qed.

End CodecFacts.

(* ===================================================================== *)
(** ** Properties of [call_rpc] and [main] *)
(* ===================================================================== *)

Module RpcProps.
Import Py Codec World Script Samples StrFacts CodecFacts.

Section Urllib.
Context {U : Urllib}.

(** A URL the constructor accepts gives a request for every payload:
    the JSON text is ASCII and can be encoded. *)
Lemma rpc_request_accepted url key p :
  request_error (endpoint url) = None → is_Some (rpc_request url key p).
Proof.
  intros Hacc. unfold rpc_request. rewrite Hacc.
  destruct (encode_json_dumps p) as [b ->]. by eexists.
Qed.


Lemma rpc_request_Some url key p req :
  rpc_request url key p = Some req → request_error (endpoint url) = None.
Proof.
  unfold rpc_request. by destruct (request_error (endpoint url)).
Qed.

(** When the constructor raises, [call_rpc] raises the same and
    nothing else happens. *)
Lemma call_rpc_rejected w s url key p e :
  request_error (endpoint url) = Some e →
  call_rpc url key p w s = (Raise e, s).
Proof.
  intros Herr. unfold call_rpc, mbind, M_bind, mret, M_ret, new_request.
  cbv zeta. destruct (encode_json_dumps p) as [b ->]. by rewrite Herr.
Qed.

(** [call_rpc] hands its request to [urlopen] once and turns the
    outcome into its own. *)
Lemma call_rpc_run w s url key p req :
  rpc_request url key p = Some req →
  call_rpc url key p w s =
  (match server w (sent s) req 20 with
   | Ok resp => Ok (status resp, decode_utf8_ignore (content resp))
   | Raise (HTTPError code raw) => Ok (code, decode_utf8_ignore raw)
   | Raise e => Raise e
   end,
   {| stdout := stdout s; sent := sent s ++ [req] |}).
Proof.
  unfold rpc_request, call_rpc, mbind, M_bind, mret, M_ret, new_request.
  cbv zeta.
  destruct (request_error (endpoint url)) as [e|]; [done|].
  destruct (encode_utf8 (json_dumps p)) as [b|]; [|done].
  intros [= <-]. unfold try_except, urlopen. cbv beta iota.
  fold (build_request url key b).
  by destruct (server w (sent s) _ 20) as [resp|[]].
Qed.

Lemma call_rpc_reply w s url key p req :
  rpc_request url key p = Some req →
  call_rpc url key p w s =
  (reply w (sent s) url key p,
   {| stdout := stdout s; sent := sent s ++ [req] |}).
Proof.
  intros Hreq. unfold reply. by rewrite !(call_rpc_run _ _ _ _ _ _ Hreq).
Qed.

Lemma reply_server w history url key p req :
  rpc_request url key p = Some req →
  reply w history url key p =
  match server w history req 20 with
  | Ok resp => Ok (status resp, decode_utf8_ignore (content resp))
  | Raise (HTTPError code raw) => Ok (code, decode_utf8_ignore raw)
  | Raise e => Raise e
  end.
Proof. intros Hreq. unfold reply. by rewrite (call_rpc_run _ _ _ _ _ _ Hreq). Qed.

Lemma reply_rejected w history url key p e :
  request_error (endpoint url) = Some e →
  reply w history url key p = Raise e.
Proof.
  intros Herr. unfold reply. by rewrite (call_rpc_rejected _ _ _ _ _ _ Herr).
Qed.


(** The two checks, step by step. *)
Lemma checks_run w url key req1 req2 :
  rpc_request url key payload1 = Some req1 →
  rpc_request url key payload2 = Some req2 →
  checks url key w initial =
  match reply w [] url key payload1 with
  | Raise e => (Raise e, {| stdout := [msg_step1]; sent := [req1] |})
  | Ok (st, body) =>
      let out :=
        [msg_step1; lit "HTTP " ++ str_of_int st; slice_to 600 body;
         if contains phrase_not_found body
         then msg_not_deployed else msg_callable;
         msg_step2] in
      match reply w [req1] url key payload2 with
      | Raise e => (Raise e, {| stdout := out; sent := [req1; req2] |})
      | Ok (st2, body2) =>
          (Ok tt,
           {| stdout :=
                out ++ [lit "HTTP " ++ str_of_int st2; slice_to 600 body2]
                    ++ (if contains phrase_guard body2
                        then [msg_guard_active]
                        else [msg_inconclusive; msg_caveat]);
              sent := [req1; req2] |})
      end
  end.
Proof.
  intros H1 H2. unfold checks, mbind, M_bind, initial.
  cbn [print stdout sent app].
  rewrite (call_rpc_reply _ _ _ _ _ _ H1). cbn [stdout sent app].
  destruct (reply w [] url key payload1) as [[st body]|e]; [|done].
  cbn [print stdout sent app].
  destruct (contains phrase_not_found body);
    cbn [print stdout sent app];
    rewrite (call_rpc_reply _ _ _ _ _ _ H2); cbn [stdout sent app];
    (destruct (reply w [req1] url key payload2) as [[st2 body2]|e]; [|done]);
    cbn [print stdout sent app];
    by destruct (contains phrase_guard body2).
Qed.

(** The checks when the constructor refuses the endpoint: the header
    of step 1, then the exception, and no request. *)
Lemma checks_rejected w url key e :
  request_error (endpoint url) = Some e →
  checks url key w initial =
  (Raise e, {| stdout := [msg_step1]; sent := [] |}).
Proof.
  intros Herr. unfold checks, mbind, M_bind, initial.
  cbn [print stdout sent app].
  by rewrite (call_rpc_rejected _ _ _ _ _ _ Herr).
Qed.

(** The three ways a run starts. *)
Lemma run_missing w :
  files w (lit ".env") = Missing →
  run w = (Ok tt, {| stdout := [msg_no_env]; sent := [] |}).
Proof.
  intros Hf. unfold run, main, mbind, M_bind, path_exists. by rewrite Hf.
Qed.

Lemma run_unreadable w e :
  files w (lit ".env") = Unreadable e → run w = (Raise e, initial).
Proof.
  intros Hf.
  unfold run, main, load_env, mbind, M_bind, path_exists, read_text.
  cbv zeta. rewrite Hf. cbn [negb]. cbv beta. by rewrite Hf.
Qed.

Lemma run_regular w text env :
  files w (lit ".env") = Regular text →
  load_env_text text = Ok env →
  run w =
  match env !! lit "SUPABASE_URL", env !! lit "SUPABASE_ANON_KEY" with
  | Some url, Some key =>
      if is_empty url || is_empty key
      then (Ok tt, {| stdout := [msg_no_keys]; sent := [] |})
      else checks url key w initial
  | _, _ => (Ok tt, {| stdout := [msg_no_keys]; sent := [] |})
  end.
Proof.
  intros Hf Henv.
  unfold run, main, load_env, mbind, M_bind, path_exists, read_text, lift.
  cbv zeta. rewrite Hf. cbn [negb]. cbv beta. rewrite Hf, Henv.
  destruct (env !! lit "SUPABASE_URL") as [url|]; [|done].
  destruct (env !! lit "SUPABASE_ANON_KEY") as [key|]; [|done].
  by destruct (is_empty url || is_empty key).
Qed.

Lemma load_env_text_Ok text : ∃ env, load_env_text text = Ok env.
Proof. eexists. apply EnvProps.load_env_lines_fold. Qed.

Lemma run_configured w url key :
  configured w url key → run w = checks url key w initial.
Proof.
  intros (text & env & Hf & Henv & Hu & Hune & Hk & Hkne).
  rewrite (run_regular _ _ _ Hf Henv), Hu, Hk.
  by destruct url, key.
Qed.

(** C1, amended: whenever the server answers, with a success or with
    an error status, [call_rpc] returns the pair of the status code
    and the decoded body.  It raises in two cases only: the
    constructor of the request refuses the endpoint, as it does a URL
    without a scheme, and then nothing is handed to [urlopen]; or
    [urlopen] raises something other than an [HTTPError], which
    [call_rpc] passes on as it is. *)
Theorem call_rpc_result w s url key p :
  (∀ e,
     request_error (endpoint url) = Some e →
     call_rpc url key p w s = (Raise e, s)) ∧
  (request_error (endpoint url) = None →
   ∃ req,
     rpc_request url key p = Some req ∧
     let s' := {| stdout := stdout s; sent := sent s ++ [req] |} in
     (∀ resp,
        server w (sent s) req 20 = Ok resp →
        call_rpc url key p w s =
        (Ok (status resp, decode_utf8_ignore (content resp)), s')) ∧
     (∀ code raw,
        server w (sent s) req 20 = Raise (HTTPError code raw) →
        call_rpc url key p w s = (Ok (code, decode_utf8_ignore raw), s')) ∧
     (∀ e,
        call_rpc url key p w s = (Raise e, s') ↔
        server w (sent s) req 20 = Raise e ∧ no_response e)).
Proof.
  split; [intros e; apply call_rpc_rejected|]. intros Hacc.
  destruct (rpc_request_accepted url key p Hacc) as [req Hreq].
  exists req. split; [done|]. cbv zeta.
  rewrite (call_rpc_run _ _ _ _ _ _ Hreq).
  split; [by intros resp ->|]. split; [by intros code raw ->|].
  intros e.
  destruct (server w (sent s) req 20) as [resp|[]]; simpl;
    (split; [intros [= <-]; by split | intros [[= <-] Hn]; done]).
Qed.

(** C2: without the [.env] file [main] prints the missing-file line,
    and with a file in which [SUPABASE_URL] or [SUPABASE_ANON_KEY] is
    absent or empty it prints the missing-key line; in both cases it
    returns normally, prints nothing else and hands no request to
    [urlopen]. *)
Theorem main_stops_without_configuration w :
  (files w (lit ".env") = Missing →
   run w = (Ok tt, {| stdout := [msg_no_env]; sent := [] |})) ∧
  (∀ text env,
     files w (lit ".env") = Regular text →
     load_env_text text = Ok env →
     env !! lit "SUPABASE_URL" = None ∨
     env !! lit "SUPABASE_URL" = Some [] ∨
     env !! lit "SUPABASE_ANON_KEY" = None ∨
     env !! lit "SUPABASE_ANON_KEY" = Some [] →
     run w = (Ok tt, {| stdout := [msg_no_keys]; sent := [] |})).
Proof.
  split; [apply run_missing|].
  intros text env Hf Henv Hkeys. rewrite (run_regular _ _ _ Hf Henv).
  destruct (env !! lit "SUPABASE_URL") as [[|c url]|];
    destruct (env !! lit "SUPABASE_ANON_KEY") as [[|d key]|];
    try done.
  by destruct Hkeys as [?|[?|[?|?]]].
Qed.

Lemma is_configured text url key w :
  files w (lit ".env") = Regular text →
  foldl add ∅ (entries text) !! lit "SUPABASE_URL" = Some url →
  foldl add ∅ (entries text) !! lit "SUPABASE_ANON_KEY" = Some key →
  url ≠ [] → key ≠ [] →
  configured w url key.
Proof.
  intros Hf Hu Hk Hune Hkne. exists text, (foldl add ∅ (entries text)).
  split; [done|]. split; [apply EnvProps.load_env_lines_fold|]. done.
Qed.

(** A call that returns has built its request. *)
Lemma reply_Ok_accepted w history url key p answer :
  reply w history url key p = Ok answer →
  request_error (endpoint url) = None.
Proof.
  intros Hr. destruct (request_error (endpoint url)) as [e|] eqn:Herr; [|done].
  by rewrite (reply_rejected _ _ _ _ _ _ Herr) in Hr.
Qed.

(** C4: when the first call answers with [body], the fourth line
    [main] prints is the deployment-mismatch line if [body] holds the
    not-found phrase and the success line otherwise; either way the
    header of step 2 follows and the request of step 2 is handed to
    [urlopen]. *)
Theorem step1_verdict w url key status body :
  configured w url key →
  reply w [] url key payload1 = Ok (status, body) →
  ∃ req1 req2 verdict rest,
    rpc_request url key payload1 = Some req1 ∧
    rpc_request url key payload2 = Some req2 ∧
    sent (run w).2 = [req1; req2] ∧
    stdout (run w).2 =
      [msg_step1; lit "HTTP " ++ str_of_int status; slice_to 600 body;
       verdict; msg_step2] ++ rest ∧
    (contains phrase_not_found body = true → verdict = msg_not_deployed) ∧
    (contains phrase_not_found body = false → verdict = msg_callable).
Proof.
  intros Hcfg Hreply.
  pose proof (reply_Ok_accepted _ _ _ _ _ _ Hreply) as Hacc.
  destruct (rpc_request_accepted url key payload1 Hacc) as [req1 H1].
  destruct (rpc_request_accepted url key payload2 Hacc) as [req2 H2].
  rewrite (run_configured _ _ _ Hcfg), (checks_run _ _ _ _ _ H1 H2), Hreply.
  exists req1, req2,
    (if contains phrase_not_found body then msg_not_deployed else msg_callable).
  cbv zeta.
  destruct (reply w [req1] url key payload2) as [[st2 body2]|e];
    eexists; (split; [done|]); (split; [done|]); (split; [done|]);
    (split; [cbn [snd stdout]; reflexivity|]);
    by split; intros ->.
Qed.

(** C5: when both calls answer, [main] returns normally and its last
    lines are the status and the body of the second answer followed by
    the guard-is-active line if the body holds the guard phrase, and by
    the inconclusive line and its caveat otherwise; the inconclusive
    line differs from the success lines and from the failure line. *)
Theorem step2_verdict w url key req1 status1 body1 status body :
  configured w url key →
  rpc_request url key payload1 = Some req1 →
  reply w [] url key payload1 = Ok (status1, body1) →
  reply w [req1] url key payload2 = Ok (status, body) →
  ∃ step1 : list str,
    length step1 = 5%nat ∧
    (run w).1 = Ok tt ∧
    (contains phrase_guard body = true →
     stdout (run w).2 =
       step1 ++ [lit "HTTP " ++ str_of_int status; slice_to 600 body;
                 msg_guard_active]) ∧
    (contains phrase_guard body = false →
     stdout (run w).2 =
       step1 ++ [lit "HTTP " ++ str_of_int status; slice_to 600 body;
                 msg_inconclusive; msg_caveat]) ∧
    msg_inconclusive ≠ msg_guard_active ∧
    msg_inconclusive ≠ msg_callable ∧
    msg_inconclusive ≠ msg_not_deployed.
Proof.
  intros Hcfg H1 Hreply1 Hreply2.
  destruct (rpc_request_accepted url key payload2
              (rpc_request_Some _ _ _ _ H1)) as [req2 H2].
  rewrite (run_configured _ _ _ Hcfg), (checks_run _ _ _ _ _ H1 H2).
  rewrite Hreply1. cbv zeta. rewrite Hreply2.
  exists [msg_step1; lit "HTTP " ++ str_of_int status1; slice_to 600 body1;
          if contains phrase_not_found body1
          then msg_not_deployed else msg_callable;
          msg_step2].
  split; [reflexivity|]. split; [reflexivity|].
  split; [by intros ->|]. split; [by intros ->|]. done.
Qed.

(** With a readable file, [main] either runs the two checks or stops
    at the missing-key line. *)
Lemma run_regular_cases w text :
  files w (lit ".env") = Regular text →
  (∃ url key, configured w url key) ∨
  run w = (Ok tt, {| stdout := [msg_no_keys]; sent := [] |}).
Proof.
  intros Hf. destruct (load_env_text_Ok text) as [env Henv].
  rewrite (run_regular _ _ _ Hf Henv).
  destruct (env !! lit "SUPABASE_URL") as [url|] eqn:Hu; [|by right].
  destruct (env !! lit "SUPABASE_ANON_KEY") as [key|] eqn:Hk; [|by right].
  destruct url as [|c url]; [by right|].
  destruct key as [|d key]; [by right|].
  left. exists (c :: url), (d :: key), text, env. done.
Qed.





End Urllib.

Lemma forallb_char_in_repeat c tail :
  forallb (char_in [c]) tail = true → tail = repeat c (length tail).
Proof.
  induction tail as [|d tail IH]; simpl; [done|].
  rewrite orb_false_r. intros [->%N.eqb_eq Ht]%andb_prop. by rewrite <- IH.
Qed.

Lemma lit_slash : lit "/" = [0x2F].
Proof. reflexivity. Qed.

(** C6: the request of [call_rpc] goes to the same endpoint for a base
    URL and for that URL with a slash appended: the base URL without
    its trailing slashes, followed by the path of the procedure. *)
Theorem endpoint_trailing_slash u key body :
  full_url (build_request u key body) = endpoint u ∧
  full_url (build_request (u ++ lit "/") key body) = endpoint u ∧
  (∃ base n,
     u = base ++ repeat 0x2F n ∧
     last base ≠ Some 0x2F ∧
     endpoint u = base ++ rpc_path ∧
     endpoint (u ++ lit "/") = base ++ rpc_path) ∧
  endpoint (lit "https://x.test") =
    lit "https://x.test/rest/v1/rpc/record_test_and_sync_stats" ∧
  endpoint (lit "https://x.test/") =
    lit "https://x.test/rest/v1/rpc/record_test_and_sync_stats".
Proof.
  assert (endpoint (u ++ lit "/") = endpoint u) as Hslash.
  { unfold endpoint. by rewrite rstrip_chars_app_all. }
  split; [reflexivity|]. split; [exact Hslash|].
  split; [|split; reflexivity].
  rewrite Hslash. unfold endpoint. rewrite lit_slash.
  destruct (rstrip_chars_split [0x2F] u) as [tail [Hu Htail]].
  exists (rstrip_chars [0x2F] u), (length tail).
  split; [by rewrite <- (forallb_char_in_repeat _ _ Htail)|].
  split; [|done]. intros Hlast.
  by apply rstrip_chars_last in Hlast.
Qed.

(** C10: every trailing slash is removed: base URLs that differ only
    in the number of slashes at their end give one endpoint. *)
Theorem endpoint_any_trailing_slashes base n m :
  endpoint (base ++ repeat 0x2F n) = endpoint (base ++ repeat 0x2F m) ∧
  endpoint (base ++ repeat 0x2F n) = endpoint base ∧
  endpoint (lit "https://x.test//") = endpoint (lit "https://x.test") ∧
  endpoint (lit "https://x.test/") = endpoint (lit "https://x.test").
Proof.
  assert (∀ k, endpoint (base ++ repeat 0x2F k) = endpoint base) as Hk.
  { intros k. unfold endpoint. rewrite rstrip_chars_app_all; [done|].
    by apply forallb_repeat. }
  split; [by rewrite !Hk|]. split; [apply Hk|]. split; reflexivity.
Qed.

(** The runs below go with a library whose further checks accept the
    URLs of the samples. *)
#[local] Existing Instance lenient.

(** C1, the claim as stated fails: for a base URL without a scheme
    [call_rpc] raises [ValueError] while the request is built; nothing
    is handed to [urlopen], so no exchange has failed. *)
Lemma call_rpc_raises_without_scheme :
  call_rpc (lit "x.test") (lit "anon") payload1 guarded initial =
  (Raise (ValueError "unknown url type"), initial).
Proof. vm_compute. reflexivity. Qed.

Lemma call_rpc_result_witness :
  call_rpc (lit "https://x.test/") (lit "anon") payload1 undeployed initial =
  (Ok (404%Z, decode_utf8_ignore body_not_found),
   {| stdout := [];
      sent := match rpc_request (lit "https://x.test/") (lit "anon") payload1 with
              | Some req => [req]
              | None => []
              end |}) ∧
  call_rpc (lit "x.test") (lit "anon") payload1 undeployed initial =
  (Raise (ValueError "unknown url type"), initial).
Proof.
  split.
  - destruct (call_rpc_result undeployed initial
                (lit "https://x.test/") (lit "anon") payload1)
      as [_ Hacc].
    destruct Hacc as (req & Hreq & _ & Herr & _);
      [vm_compute; reflexivity|].
    rewrite Hreq. exact (Herr 404%Z body_not_found eq_refl).
  - apply (proj1 (call_rpc_result undeployed initial
                    (lit "x.test") (lit "anon") payload1)).
    vm_compute. reflexivity.
Defined.

Lemma main_stops_without_configuration_witness :
  run no_env = (Ok tt, {| stdout := [msg_no_env]; sent := [] |}) ∧
  run url_only = (Ok tt, {| stdout := [msg_no_keys]; sent := [] |}).
Proof.
  split.
  - exact (proj1 (main_stops_without_configuration no_env) eq_refl).
  - apply (proj2 (main_stops_without_configuration url_only) url_only_env
             (foldl add ∅ (entries url_only_env))).
    + reflexivity.
    + apply EnvProps.load_env_lines_fold.
    + right. right. left. vm_compute. reflexivity.
Defined.

Lemma step1_verdict_witness :
  ∃ rest,
    stdout (run undeployed).2 =
      [msg_step1; lit "HTTP 404"; decode_utf8_ignore body_not_found;
       msg_not_deployed; msg_step2] ++ rest ∧
    length (sent (run undeployed).2) = 2%nat.
Proof.
  destruct (step1_verdict undeployed (lit "https://x.test/") (lit "anon")
              404%Z (decode_utf8_ignore body_not_found))
    as (req1 & req2 & verdict & rest & _ & _ & Hsent & Hout & Hbad & _).
  - apply (is_configured full_env); [reflexivity| | |done|done];
      vm_compute; reflexivity.
  - vm_compute. reflexivity.
  - exists rest. rewrite Hsent. split; [|reflexivity].
    rewrite Hout, Hbad; [reflexivity|]. vm_compute. reflexivity.
Defined.

Lemma step2_verdict_witness :
  (run guarded).1 = Ok tt ∧
  ∃ step1 : list str,
    length step1 = 5%nat ∧
    stdout (run guarded).2 =
      step1 ++ [lit "HTTP 400"; decode_utf8_ignore body_guard;
                msg_guard_active].
Proof.
  destruct (step2_verdict guarded (lit "https://x.test/") (lit "anon")
              (build_request (lit "https://x.test/") (lit "anon")
                 (default [] (encode_utf8 (json_dumps payload1))))
              200%Z (lit "[]") 400%Z (decode_utf8_ignore body_guard))
    as (step1 & Hlen & Hok & Hout & _).
  - apply (is_configured full_env); [reflexivity| | |done|done];
      vm_compute; reflexivity.
  - vm_compute. reflexivity.
  - vm_compute. reflexivity.
  - vm_compute. reflexivity.
  - split; [exact Hok|]. exists step1. split; [exact Hlen|].
    apply Hout. vm_compute. reflexivity.
Defined.



End RpcProps.

(* ===================================================================== *)
(** ** Worked runs *)
(* ===================================================================== *)

Module Scenarios.
Import Py Codec World Script Samples.

#[local] Existing Instance lenient.

Example splitlines_mixed :
  splitlines (lit "a" ++ [CR; LF] ++ lit "b" ++ [LF; LF] ++ lit "c" ++ [CR])
  = [lit "a"; lit "b"; []; lit "c"].
Proof. reflexivity. Qed.

Example splitlines_empty : splitlines [] = [].
Proof. reflexivity. Qed.

Example strip_unicode_space :
  strip ([0x3000; 0x09] ++ lit "K = v" ++ [0xA0; 0x20]) = lit "K = v".
Proof. reflexivity. Qed.

Example split1_first_only :
  split1 (lit "=") (lit "a=b=c") = [lit "a"; lit "b=c"].
Proof. reflexivity. Qed.

Example rstrip_slashes :
  rstrip_chars (lit "/") (lit "https://x.test///") = lit "https://x.test".
Proof. reflexivity. Qed.

Example json_dumps_small :
  json_dumps [(lit "n", PyInt (-7)); (lit "s", PyStr [0x61; 0x22; 0xE9])]
  = lit "{" ++ [0x22] ++ lit "n" ++ [0x22] ++ lit ": -7, "
      ++ [0x22] ++ lit "s" ++ [0x22] ++ lit ": "
      ++ [0x22] ++ lit "a" ++ [0x5C; 0x22] ++ lit "\u00e9" ++ [0x22]
      ++ lit "}".
Proof. reflexivity. Qed.

Example utf8_round_trip :
  decode_utf8_ignore <$> encode_utf8 [0x41; 0xE9; 0x20AC; 0x1F600]
  = Some [0x41; 0xE9; 0x20AC; 0x1F600].
Proof. reflexivity. Qed.

Example utf8_ill_formed_dropped :
  decode_utf8_ignore <$> mk_bytes [0x41; 0xE0; 0x80; 0x42; 0xF0; 0x90; 0x43; 0xC3]
  = Some (lit "ABC").
Proof. reflexivity. Qed.

Example load_env_sample :
  load_env_text sample_text
  = Ok (<[lit "B" := lit "2=3"]> {[lit "A" := lit "1"]}).
Proof. vm_compute. reflexivity. Qed.

(** No [.env] file: one line, no request. *)
Example scenario_missing_config :
  run no_env = (Ok tt, {| stdout := [msg_no_env]; sent := [] |}).
Proof. reflexivity. Qed.

(** Only [SUPABASE_URL] in [.env]: one line, no request. *)
Example scenario_missing_key :
  run url_only = (Ok tt, {| stdout := [msg_no_keys]; sent := [] |}).
Proof. vm_compute. reflexivity. Qed.

(** The function answers and the guard rejects the historical write. *)
Example scenario_guard_active :
  (run guarded).1 = Ok tt ∧
  stdout (run guarded).2 =
    [msg_step1; lit "HTTP 200"; lit "[]"; msg_callable; msg_step2;
     lit "HTTP 400"; decode_utf8_ignore body_guard; msg_guard_active].
Proof. split; vm_compute; reflexivity. Qed.

(** The function is not deployed: the failure line, then step 2. *)
Example scenario_function_missing :
  (run undeployed).1 = Ok tt ∧
  stdout (run undeployed).2 =
    [msg_step1; lit "HTTP 404"; decode_utf8_ignore body_not_found;
     msg_not_deployed; msg_step2;
     lit "HTTP 404"; decode_utf8_ignore body_not_found;
     msg_inconclusive; msg_caveat] ∧
  length (sent (run undeployed).2) = 2%nat.
Proof. repeat split; vm_compute; reflexivity. Qed.

(** The second answer lacks the guard phrase: the warning and its
    caveat. *)
Example scenario_inconclusive :
  (run denied).1 = Ok tt ∧
  stdout (run denied).2 =
    [msg_step1; lit "HTTP 200"; lit "[]"; msg_callable; msg_step2;
     lit "HTTP 401"; decode_utf8_ignore body_denied;
     msg_inconclusive; msg_caveat].
Proof. split; vm_compute; reflexivity. Qed.

(** A base URL without a scheme: the header of step 1, then the
    [ValueError] of the constructor, and no request. *)
Example scenario_url_without_scheme :
  run schemeless =
  (Raise (ValueError "unknown url type"),
   {| stdout := [msg_step1]; sent := [] |}).
Proof. vm_compute. reflexivity. Qed.

Example unwrap_wrapped :
  unwrap (lit "  <URL: https://x.test > ") = lit "https://x.test".
Proof. reflexivity. Qed.

Example has_type_scheme :
  has_type (lit "https://x.test/rest") = true ∧
  has_type (lit "x.test/rest") = false ∧
  has_type (lit ":x") = false.
Proof. by repeat split. Qed.

Example headers_capitalised :
  headers (build_request (lit "https://x.test") (lit "k") []) =
  [(lit "Apikey", lit "k");
   (lit "Authorization", lit "Bearer k");
   (lit "Content-type", lit "application/json")].
Proof. reflexivity. Qed.

End Scenarios.

(* ===================================================================== *)
(** ** More on trimming *)
(* ===================================================================== *)

Module StripFacts.
Import Py StrFacts.

Lemma dropwhile_app_stop p a c b :
  p c = false → dropwhile p (a ++ c :: b) = dropwhile p a ++ c :: b.
Proof.
  intros Hc. induction a as [|d a IH]; simpl.
  - by rewrite Hc.
  - by destruct (p d).
Qed.

Lemma dropwhile_idem p s : dropwhile p (dropwhile p s) = dropwhile p s.
Proof.
  destruct (dropwhile p s) as [|c t] eqn:Hd; [done|].
  simpl. by rewrite (dropwhile_head _ _ _ _ Hd).
Qed.

Lemma lstrip_around a c b :
  isspace c = false → lstrip (a ++ c :: b) = lstrip a ++ c :: b.
Proof. apply dropwhile_app_stop. Qed.

Lemma rstrip_around a c b :
  isspace c = false → rstrip (a ++ c :: b) = a ++ c :: rstrip b.
Proof.
  intros Hc. unfold rstrip. rewrite rev_app_distr. simpl.
  rewrite <- app_assoc. simpl.
  rewrite (dropwhile_app_stop _ _ _ _ Hc), rev_app_distr. simpl.
  by rewrite rev_involutive, <- app_assoc.
Qed.

(** Trimming around a character that is not whitespace works on the
    two sides separately. *)
Lemma strip_around a c b :
  isspace c = false → strip (a ++ c :: b) = lstrip a ++ c :: rstrip b.
Proof.
  intros Hc. unfold strip.
  by rewrite (lstrip_around _ _ _ Hc), (rstrip_around _ _ _ Hc).
Qed.

Lemma rstrip_blank s : forallb isspace s = true → rstrip s = [].
Proof.
  intros Hs. unfold rstrip. rewrite dropwhile_all; [done|].
  by rewrite forallb_rev.
Qed.

(** A string that is not blank has a last character that is not
    whitespace. *)
Lemma last_nonspace s :
  forallb isspace s = false →
  ∃ x c ws,
    s = x ++ c :: ws ∧ isspace c = false ∧ forallb isspace ws = true.
Proof.
  intros Hs.
  destruct (dropwhile_split isspace (rev s)) as [pre [Hrev Hpre]].
  destruct (dropwhile isspace (rev s)) as [|c t] eqn:Hd.
  - rewrite app_nil_r in Hrev. rewrite <- Hrev, forallb_rev in Hpre.
    congruence.
  - exists (rev t), c, (rev pre). split; [|split].
    + rewrite <- (rev_involutive s), Hrev, rev_app_distr. simpl.
      by rewrite <- app_assoc.
    + by apply dropwhile_head in Hd.
    + by rewrite forallb_rev.
Qed.

Lemma strip_lstrip s : strip (lstrip s) = strip s.
Proof. unfold strip, lstrip. by rewrite dropwhile_idem. Qed.

Lemma strip_rstrip s : strip (rstrip s) = strip s.
Proof.
  destruct (forallb isspace s) eqn:Hs.
  - by rewrite (rstrip_blank _ Hs), (strip_blank _ Hs).
  - destruct (last_nonspace _ Hs) as (x & c & ws & -> & Hc & Hws).
    rewrite (rstrip_around _ _ _ Hc), !(strip_around _ _ _ Hc).
    by rewrite (rstrip_blank _ Hws).
Qed.

(** Trimming twice is trimming once. *)
Lemma strip_strip s : strip (strip s) = strip s.
Proof.
  transitivity (strip (lstrip s)); [|apply strip_lstrip].
  unfold strip at 2. apply strip_rstrip.
Qed.

(** Whitespace around a string does not change what it trims to. *)
Lemma strip_padded w1 s w2 :
  forallb isspace w1 = true → forallb isspace w2 = true →
  strip (w1 ++ s ++ w2) = strip s.
Proof.
  intros H1 H2.
  assert (strip (s ++ w2) = strip s) as Hr.
  { destruct (forallb isspace s) eqn:Hs.
    - rewrite !strip_blank; [done..|]. by rewrite forallb_app, Hs, H2.
    - destruct (last_nonspace _ Hs) as (x & c & ws & -> & Hc & Hws).
      rewrite <- app_assoc. simpl.
      rewrite !(strip_around _ _ _ Hc). do 2 f_equal.
      rewrite !rstrip_blank; [done..|]. by rewrite forallb_app, Hws, H2. }
  rewrite <- Hr. unfold strip, lstrip. by rewrite dropwhile_app_all.
Qed.

(** A trimmed string does not begin with whitespace. *)
Lemma strip_first s c t : strip s = c :: t → isspace c = false.
Proof.
  unfold strip. destruct (lstrip s) as [|d u] eqn:Hl; [done|].
  assert (isspace d = false) as Hd by exact (dropwhile_head _ _ _ _ Hl).
  pose proof (rstrip_around [] d u Hd) as Hr. simpl in Hr.
  rewrite Hr. by intros [= <- _].
Qed.

End StripFacts.

(* ===================================================================== *)
(** ** Facts about [splitlines] *)
(* ===================================================================== *)

Module SplitFacts.
Import Py StrFacts.

(** One step of [splitlines_from] on a character that ends no line. *)
Lemma splitlines_from_plain cur c t :
  islinebreak c = false →
  splitlines_from cur (c :: t) = splitlines_from (c :: cur) t.
Proof. intros Hc. simpl. by rewrite Hc. Qed.

(** One step on a line boundary other than CR. *)
Lemma splitlines_from_break cur c t :
  islinebreak c = true → c ≠ CR →
  splitlines_from cur (c :: t) = rev cur :: splitlines_from [] t.
Proof.
  intros Hc Hcr. simpl. rewrite Hc.
  by destruct (N.eqb_spec c CR).
Qed.

(** One step on CR: a following LF belongs to the same boundary. *)
Lemma splitlines_from_cr cur t :
  splitlines_from cur (CR :: t) =
  rev cur :: match t with
             | c' :: t' =>
                 if c' =? LF then splitlines_from [] t'
                 else splitlines_from [] t
             | [] => []
             end.
Proof. by destruct t. Qed.

(** No line holds a line boundary. *)
Lemma splitlines_from_no_break n : ∀ s cur line,
  (length s ≤ n)%nat →
  Forall (λ c, islinebreak c = false) cur →
  line ∈ splitlines_from cur s →
  Forall (λ c, islinebreak c = false) line.
Proof.
  induction n as [|n IH]; intros s cur line Hn Hcur Hin.
  - destruct s; [|simpl in Hn; lia]. simpl in Hin.
    destruct cur; [by apply elem_of_nil in Hin|].
    apply list_elem_of_singleton in Hin as ->.
    by apply Forall_rev.
  - destruct s as [|c t].
    { simpl in Hin. destruct cur; [by apply elem_of_nil in Hin|].
      apply list_elem_of_singleton in Hin as ->. by apply Forall_rev. }
    simpl in Hn. destruct (islinebreak c) eqn:Hc.
    + assert (Forall (λ c, islinebreak c = false) (rev cur)) as Hrev
        by by apply Forall_rev.
      destruct (N.eqb_spec c CR) as [->|Hcr].
      * rewrite splitlines_from_cr in Hin.
        apply elem_of_cons in Hin as [->|Hin]; [done|].
        destruct t as [|c' t']; [by apply elem_of_nil in Hin|].
        simpl in Hn.
        destruct (c' =? LF);
          apply (IH _ [] line) in Hin; try done; simpl; lia.
      * rewrite (splitlines_from_break _ _ _ Hc Hcr) in Hin.
        apply elem_of_cons in Hin as [->|Hin]; [done|].
        apply (IH _ [] line) in Hin; [done|lia|done].
    + rewrite (splitlines_from_plain _ _ _ Hc) in Hin.
      apply (IH _ (c :: cur) line) in Hin; [done|lia|].
      by constructor.
Qed.

Lemma splitlines_no_break s line c :
  line ∈ splitlines s → c ∈ line → islinebreak c = false.
Proof.
  intros Hline Hc.
  assert (Forall (λ c, islinebreak c = false) line) as Hall.
  { by apply (splitlines_from_no_break (length s) s [] line). }
  rewrite Forall_forall in Hall. by apply Hall.
Qed.

(** The lines of [a], a line feed and [b]: the lines of [a], perhaps
    one empty line, and the lines of [b]. *)
Lemma splitlines_from_join b n : ∀ a cur,
  (length a ≤ n)%nat →
  ∃ extra,
    (extra = [] ∨ extra = [[]]) ∧
    splitlines_from cur (a ++ LF :: b) =
    splitlines_from cur a ++ extra ++ splitlines b.
Proof.
  assert (∀ cur, ∃ extra,
    (extra = [] ∨ extra = [[]]) ∧
    splitlines_from cur ([] ++ LF :: b) =
    splitlines_from cur [] ++ extra ++ splitlines b) as Hnil.
  { intros cur. cbn [app].
    rewrite (splitlines_from_break cur LF b) by done.
    destruct cur as [|c cur].
    - exists [[]]. by split; [right|].
    - exists []. by split; [left|]. }
  induction n as [|n IH]; intros a cur Hn.
  - destruct a; [apply Hnil|simpl in Hn; lia].
  - destruct a as [|c a]; [apply Hnil|]. simpl in Hn.
    rewrite <- app_comm_cons.
    destruct (islinebreak c) eqn:Hc.
    + destruct (N.eqb_spec c CR) as [->|Hcr].
      * rewrite !splitlines_from_cr.
        destruct a as [|c' a'].
        { exists []. by split; [left|]. }
        rewrite <- app_comm_cons. simpl in Hn.
        destruct (c' =? LF).
        -- destruct (IH a' []) as (extra & Hextra & ->); [lia|].
           by exists extra.
        -- rewrite app_comm_cons.
           destruct (IH (c' :: a') []) as (extra & Hextra & ->);
             [simpl; lia|].
           by exists extra.
      * rewrite !(splitlines_from_break _ _ _ Hc Hcr).
        destruct (IH a []) as (extra & Hextra & ->); [lia|].
        by exists extra.
    + rewrite !(splitlines_from_plain _ _ _ Hc).
      apply IH. lia.
Qed.

Lemma splitlines_join a b :
  ∃ extra,
    (extra = [] ∨ extra = [[]]) ∧
    splitlines (a ++ [LF] ++ b) =
    splitlines a ++ extra ++ splitlines b.
Proof. apply (splitlines_from_join b (length a) a []). lia. Qed.

End SplitFacts.

(* ===================================================================== *)
(** ** More properties of [load_env] *)
(* ===================================================================== *)

Module EnvExtra.
Import Py World Script Samples StrFacts StripFacts SplitFacts EnvProps.

(** A value found in the mapping was put there by an entry. *)
Lemma lookup_foldl_add_Some env (es : list (str * str)) k v :
  foldl add env es !! k = Some v → (k, v) ∈ es ∨ env !! k = Some v.
Proof.
  revert env. induction es as [|[k' v'] es IH]; intros env; simpl; [auto|].
  intros [Hin|Hl]%IH; [left; by right|].
  unfold add in Hl. simpl in Hl.
  destruct (decide (k' = k)) as [->|Hne].
  - rewrite lookup_insert_eq in Hl. injection Hl as ->. left. by left.
  - rewrite lookup_insert_ne in Hl by done. by right.
Qed.

(** Entries laid over a mapping: the mapping of the entries, then the
    old one for the other keys. *)
Lemma foldl_add_union env (es : list (str * str)) :
  foldl add env es = foldl add ∅ es ∪ env.
Proof.
  revert env. induction es as [|e es IH]; intros env; simpl.
  - by rewrite (left_id_L ∅ (∪)).
  - rewrite (IH (add env e)), (IH (add ∅ e)). unfold add.
    rewrite <- (assoc_L (∪)). f_equal.
    by rewrite insert_union_singleton_l, insert_empty.
Qed.

Lemma load_env_text_fold text :
  load_env_text text = Ok (foldl add ∅ (entries text)).
Proof. apply load_env_lines_fold. Qed.

(** The entry of a line [a=b], read off the line as it stands. *)
Lemma key_value_raw a b :
  contains (lit "=") a = false →
  key_value (a ++ lit "=" ++ b) =
  if startswith (lstrip a) (lit "#") then None
  else Some (strip a, strip b).
Proof.
  rewrite lit_eq, lit_hash. intros Ha%contains_char_false.
  unfold key_value. rewrite lit_eq, lit_hash.
  change (a ++ [61] ++ b) with (a ++ 61 :: b).
  rewrite (strip_around a 61 b eq_refl).
  assert (startswith (lstrip a ++ 61 :: rstrip b) [35]
          = startswith (lstrip a) [35]) as ->.
  { by destruct (lstrip a). }
  destruct (startswith (lstrip a) [35]); [done|].
  rewrite cut_char.
  - by rewrite strip_lstrip, strip_rstrip.
  - intros Hin. by apply Ha, (dropwhile_elem isspace).
Qed.

(** X1: [load_env] leaves the state alone and raises only when the
    file cannot be read: whatever text the file holds, it returns a
    mapping, the unpacking of the split line never failing. *)
Theorem load_env_raises_only_on_read path w s :
  (load_env path w s).2 = s ∧
  (∀ text,
     files w path = Regular text →
     ∃ env, load_env path w s = (Ok env, s) ∧ load_env_text text = Ok env) ∧
  (∀ e,
     (load_env path w s).1 = Raise e →
     files w path = Missing ∨ files w path = Unreadable e).
Proof.
  unfold load_env, mbind, M_bind, read_text, lift.
  destruct (files w path) as [|text|e0]; simpl.
  - split; [done|]. split; [done|]. auto.
  - split; [done|]. rewrite load_env_text_fold. split; [|done].
    intros t [= <-]. eexists. split; [done|]. apply load_env_text_fold.
  - split; [done|]. split; [done|]. intros e [= ->]. auto.
Qed.

Lemma load_env_raises_only_on_read_witness :
  ∃ env, load_env (lit ".env") guarded initial = (Ok env, initial).
Proof.
  destruct (proj1 (proj2 (load_env_raises_only_on_read
                            (lit ".env") guarded initial))
              full_env eq_refl) as (env & Henv & _).
  by exists env.
Defined.

(** X2: for a line [a=b] with no [=] in [a], one turn of the loop maps
    the trimmed [a] to the trimmed [b], whitespace around the [=]
    included in the trimming and an [=] or [#] in [b] kept; it skips
    the line when the first character of [a] that is not whitespace is
    [#]. *)
Theorem load_env_line_raw env a b :
  contains (lit "=") a = false →
  load_env_line env (a ++ lit "=" ++ b) =
  Ok (if startswith (lstrip a) (lit "#") then env
      else <[strip a := strip b]> env).
Proof.
  intros Ha. rewrite load_env_line_key_value, (key_value_raw _ _ Ha).
  by destruct (startswith (lstrip a) (lit "#")).
Qed.

Lemma load_env_line_raw_witness :
  load_env_line ∅ (lit "  KEY  " ++ lit "=" ++ lit "  v = w # c  ") =
  Ok (<[lit "KEY" := lit "v = w # c"]> ∅).
Proof. exact (load_env_line_raw ∅ (lit "  KEY  ") (lit "  v = w # c  ") eq_refl). Defined.

(** X3: whitespace before and after a line, a stray carriage return
    included, does not change what one turn of the loop does. *)
Theorem load_env_line_padding env w1 line w2 :
  forallb isspace w1 = true →
  forallb isspace w2 = true →
  load_env_line env (w1 ++ line ++ w2) = load_env_line env line.
Proof.
  intros H1 H2. unfold load_env_line. by rewrite (strip_padded _ _ _ H1 H2).
Qed.

Lemma load_env_line_padding_witness :
  load_env_line ∅ ([0x09; 0x20] ++ lit "K=v" ++ [0x20; CR]) =
  load_env_line ∅ (lit "K=v").
Proof.
  exact (load_env_line_padding ∅ [0x09; 0x20] (lit "K=v") [0x20; CR]
           eq_refl eq_refl).
Defined.

(** X4: every key and every value of the mapping [load_env] returns is
    trimmed; no key holds an [=] or begins with [#]; neither keys nor
    values hold a line boundary. *)
Theorem load_env_entries_wellformed text env k v :
  load_env_text text = Ok env →
  env !! k = Some v →
  strip k = k ∧ strip v = v ∧
  contains (lit "=") k = false ∧
  startswith k (lit "#") = false ∧
  (∀ c, c ∈ k ++ v → islinebreak c = false).
Proof.
  rewrite load_env_text_fold. intros [= <-] Hl.
  apply lookup_foldl_add_Some in Hl as [Hin|Hl];
    [|by rewrite lookup_empty in Hl].
  unfold entries in Hin.
  apply list_elem_of_omap in Hin as (line & Hline & Hkv).
  apply key_value_inv in Hkv as (k0 & v0 & Hs & Hk0 & Hhash & -> & ->).
  rewrite lit_eq in Hs, Hk0. rewrite lit_hash in Hhash.
  rewrite lit_eq, lit_hash.
  split; [apply strip_strip|]. split; [apply strip_strip|].
  split; [|split].
  - apply contains_char_false. apply contains_char_false in Hk0.
    intros Hin. by apply Hk0, strip_elem.
  - destruct k0 as [|c k0]; [done|].
    rewrite Hs in Hhash. simpl in Hs, Hhash.
    pose proof (strip_first _ _ _ Hs) as Hc.
    destruct (strip_head c k0 Hc) as [t ->]. simpl.
    rewrite andb_true_r in Hhash. by rewrite Hhash.
  - intros c Hc. apply (splitlines_no_break text line c Hline).
    apply strip_elem. rewrite Hs.
    apply elem_of_app in Hc as [Hc|Hc]; apply strip_elem in Hc.
    + apply elem_of_app. by left.
    + apply elem_of_app. right. apply elem_of_app. by right.
Qed.

Lemma load_env_entries_wellformed_witness :
  strip (lit "B") = lit "B" ∧ strip (lit "2=3") = lit "2=3" ∧
  contains (lit "=") (lit "B") = false ∧
  startswith (lit "B") (lit "#") = false ∧
  (∀ c, c ∈ lit "B" ++ lit "2=3" → islinebreak c = false).
Proof.
  apply (load_env_entries_wellformed sample_text
           (foldl add ∅ (entries sample_text))).
  - apply load_env_text_fold.
  - vm_compute. reflexivity.
Defined.

(** X5: a name is absent from the mapping [load_env] returns exactly
    when no line of the file defines it. *)
Theorem load_env_lookup_None text env k :
  load_env_text text = Ok env →
  env !! k = None ↔ k ∉ keys text.
Proof.
  rewrite load_env_text_fold. intros [= <-].
  rewrite <- not_elem_of_dom, dom_foldl_add, dom_empty_L.
  rewrite (right_id_L ∅ (∪)). unfold keys.
  by rewrite elem_of_list_to_set.
Qed.

Lemma load_env_lookup_None_witness :
  foldl add ∅ (entries url_only_env) !! lit "SUPABASE_ANON_KEY" = None.
Proof.
  apply (load_env_lookup_None url_only_env); [apply load_env_text_fold|].
  vm_compute. intros Hin. apply list_elem_of_In in Hin.
  simpl in Hin. intuition congruence.
Defined.

(** X6: when the keys of the lines are distinct, the order of the
    lines does not matter: the loop builds the same mapping from any
    rearrangement of them. *)
Theorem load_env_lines_permutation lines1 lines2 :
  lines1 ≡ₚ lines2 →
  NoDup (omap key_value lines1).*1 →
  load_env_lines ∅ lines1 = load_env_lines ∅ lines2.
Proof.
  intros Hperm Hnd. rewrite !load_env_lines_fold. f_equal.
  assert (omap key_value lines1 ≡ₚ omap key_value lines2) as Hes
    by by rewrite Hperm.
  assert (NoDup (omap key_value lines2).*1) as Hnd2 by by rewrite <- Hes.
  assert (∀ es : list (str * str), NoDup es.*1 →
            ∀ k v, foldl add ∅ es !! k = Some v ↔ (k, v) ∈ es) as Hchar.
  { intros es Hes_nd k v. split.
    - intros [?|Hl]%lookup_foldl_add_Some; [done|].
      by rewrite lookup_empty in Hl.
    - intros (pre & post & ->)%list_elem_of_split.
      apply lookup_foldl_add_last.
      rewrite fmap_app, fmap_cons in Hes_nd.
      apply NoDup_app in Hes_nd as (_ & _ & Hpost).
      by apply NoDup_cons in Hpost as [? _]. }
  apply map_eq. intros k. apply option_eq. intros v.
  rewrite (Hchar _ Hnd), (Hchar _ Hnd2). by rewrite Hes.
Qed.

Lemma load_env_lines_permutation_witness :
  load_env_lines ∅ [lit "A=1"; lit "# c"; lit "B=2"] =
  load_env_lines ∅ [lit "B=2"; lit "A=1"; lit "# c"].
Proof.
  apply load_env_lines_permutation.
  - change [lit "B=2"; lit "A=1"; lit "# c"]
      with ([lit "B=2"] ++ [lit "A=1"; lit "# c"]).
    change [lit "A=1"; lit "# c"; lit "B=2"]
      with ([lit "A=1"; lit "# c"] ++ [lit "B=2"]).
    apply Permutation_app_comm.
  - vm_compute. apply NoDup_ListNoDup.
    repeat (constructor; [simpl; intuition congruence|]). constructor.
Defined.

(** X7: a file made of two texts with a line feed between them loads
    as the mapping of the second laid over the mapping of the first;
    a line feed at the end of a file changes nothing. *)
Theorem load_env_text_concat a b ea eb :
  load_env_text a = Ok ea →
  load_env_text b = Ok eb →
  load_env_text (a ++ [LF] ++ b) = Ok (eb ∪ ea) ∧
  load_env_text (a ++ [LF]) = Ok ea.
Proof.
  rewrite !load_env_text_fold. intros [= <-] [= <-].
  assert (∀ t, entries (a ++ [LF] ++ t) = entries a ++ entries t) as Hent.
  { intros t. unfold entries.
    destruct (splitlines_join a t) as (extra & Hextra & ->).
    rewrite !omap_app. by destruct Hextra as [-> | ->]. }
  split.
  - rewrite Hent, foldl_app. f_equal. apply foldl_add_union.
  - pose proof (Hent []) as Hnil. simpl in Hnil.
    rewrite app_nil_r in Hnil. simpl. by rewrite Hnil.
Qed.

Lemma load_env_text_concat_witness :
  load_env_text (lit "A=1" ++ [LF] ++ lit "A=2")
  = Ok (foldl add ∅ (entries (lit "A=2")) ∪ foldl add ∅ (entries (lit "A=1"))).
Proof.
  apply (load_env_text_concat (lit "A=1") (lit "A=2"));
    apply load_env_text_fold.
Defined.

End EnvExtra.

(* ===================================================================== *)
(** ** The UTF-8 codec: decoding undoes encoding *)
(* ===================================================================== *)

Module Utf8Facts.
Import Py Codec CodecFacts.

(** Arithmetic with quotients and remainders by constants. *)
Ltac euclid := zify; Z.to_euclidean_division_equations; lia.

Lemma mk_bytes_to_N ns bs : mk_bytes ns = Some bs → map Byte.to_N bs = ns.
Proof.
  revert bs. induction ns as [|n ns IH]; simpl; intros bs.
  - by intros [= <-].
  - destruct (Byte.of_N n) as [b|] eqn:Hb; [|done].
    destruct (mk_bytes ns) as [bs'|]; [|done].
    intros [= <-]. apply Byte.to_of_N in Hb. simpl.
    by rewrite Hb, (IH bs').
Qed.

(** One step of the decoder. *)
Lemma decode_ignore_cons b1 t1 :
  decode_ignore (b1 :: t1) =
  if b1 <? 0x80 then b1 :: decode_ignore t1
  else if b1 <? 0xC2 then decode_ignore t1
  else if b1 <? 0xE0 then
    match t1 with
    | [] => []
    | b2 :: t2 =>
        if is_cont b2
        then ((b1 - 0xC0) * 64 + (b2 - 0x80)) :: decode_ignore t2
        else decode_ignore t1
    end
  else if b1 <? 0xF0 then
    match t1 with
    | [] => []
    | b2 :: t2 =>
        if bad_second b1 b2 then decode_ignore t1
        else
          match t2 with
          | [] => []
          | b3 :: t3 =>
              if is_cont b3
              then ((b1 - 0xE0) * 4096 + (b2 - 0x80) * 64 + (b3 - 0x80))
                     :: decode_ignore t3
              else decode_ignore t2
          end
    end
  else if b1 <? 0xF5 then
    match t1 with
    | [] => []
    | b2 :: t2 =>
        if bad_second b1 b2 then decode_ignore t1
        else
          match t2 with
          | [] => []
          | b3 :: t3 =>
              if is_cont b3 then
                match t3 with
                | [] => []
                | b4 :: t4 =>
                    if is_cont b4
                    then ((b1 - 0xF0) * 262144 + (b2 - 0x80) * 4096
                          + (b3 - 0x80) * 64 + (b4 - 0x80))
                           :: decode_ignore t4
                    else decode_ignore t3
                end
              else decode_ignore t2
          end
    end
  else decode_ignore t1.
Proof. destruct t1 as [|? [|? [|? ?]]]; reflexivity. Qed.

Lemma is_cont_low6 x : is_cont (0x80 + x mod 64) = true.
Proof.
  unfold is_cont. apply andb_true_intro.
  split; apply N.leb_le; euclid.
Qed.

Lemma bad_second_false b1 b2 :
  is_cont b2 = true →
  (b1 = 0xE0 → 0xA0 ≤ b2) → (b1 = 0xED → b2 < 0xA0) →
  (b1 = 0xF0 → 0x90 ≤ b2) → (b1 = 0xF4 → b2 < 0x90) →
  bad_second b1 b2 = false.
Proof.
  intros Hc HE0 HED HF0 HF4. unfold bad_second. rewrite Hc. simpl.
  destruct (N.eqb_spec b1 0xE0) as [H|_]; simpl.
  { destruct (N.ltb_spec b2 0xA0); [specialize (HE0 H); lia|].
    subst b1. reflexivity. }
  destruct (N.eqb_spec b1 0xED) as [H|_]; simpl.
  { destruct (N.leb_spec 0xA0 b2); [specialize (HED H); lia|].
    subst b1. reflexivity. }
  destruct (N.eqb_spec b1 0xF0) as [H|_]; simpl.
  { destruct (N.ltb_spec b2 0x90); [specialize (HF0 H); lia|].
    subst b1. reflexivity. }
  destruct (N.eqb_spec b1 0xF4) as [H|_]; simpl; [|done].
  destruct (N.leb_spec 0x90 b2); [specialize (HF4 H); lia|done].
Qed.

Ltac test_false :=
  match goal with
  | |- context [?a <? ?b] =>
      replace (a <? b) with false by (symmetry; apply N.ltb_ge; euclid)
  end.

Ltac test_true :=
  match goal with
  | |- context [?a <? ?b] =>
      replace (a <? b) with true by (symmetry; apply N.ltb_lt; euclid)
  end.

(** The decoder reads back the bytes of one encoded character. *)
Lemma decode_encode_char c bs rest :
  encode_char c = Some bs →
  decode_ignore (map Byte.to_N bs ++ rest) = c :: decode_ignore rest.
Proof.
  unfold encode_char.
  destruct (N.ltb_spec c 0x80) as [H1|H1].
  { intros ->%mk_bytes_to_N. cbn [app]. rewrite decode_ignore_cons.
    by test_true. }
  destruct (N.ltb_spec c 0x800) as [H2|H2].
  { intros ->%mk_bytes_to_N. cbn [app]. rewrite decode_ignore_cons.
    test_false. test_false. test_true.
    rewrite is_cont_low6. f_equal. euclid. }
  destruct ((0xD800 <=? c) && (c <=? 0xDFFF)) eqn:Hsur; [done|].
  assert (c < 0xD800 ∨ 0xDFFF < c) as Hns.
  { apply andb_false_iff in Hsur as [?%N.leb_gt|?%N.leb_gt]; auto. }
  destruct (N.ltb_spec c 0x10000) as [H3|H3].
  { intros ->%mk_bytes_to_N. cbn [app]. rewrite decode_ignore_cons.
    test_false. test_false. test_false. test_true.
    rewrite bad_second_false;
      [|apply is_cont_low6|intros; euclid..].
    rewrite is_cont_low6. f_equal. euclid. }
  destruct (N.ltb_spec c 0x110000) as [H4|H4]; [|done].
  intros ->%mk_bytes_to_N. cbn [app]. rewrite decode_ignore_cons.
  test_false. test_false. test_false. test_false. test_true.
  rewrite bad_second_false;
    [|apply is_cont_low6|intros; euclid..].
  rewrite !is_cont_low6. f_equal. euclid.
Qed.

(** Decoding the encoding of a text gives the text back. *)
Lemma decode_encode t bs :
  encode_utf8 t = Some bs → decode_utf8_ignore bs = t.
Proof.
  unfold decode_utf8_ignore. revert bs.
  induction t as [|c t IH]; simpl; intros bs.
  - by intros [= <-].
  - destruct (encode_char c) as [b|] eqn:Hc; [|done].
    destruct (encode_utf8 t) as [bs'|]; [|done].
    intros [= <-]. rewrite map_app, (decode_encode_char _ _ _ Hc).
    by rewrite (IH bs').
Qed.

(** The bytes of an ASCII text are its characters. *)
Lemma encode_ascii_bytes s bs :
  is_ascii s → encode_utf8 s = Some bs → map Byte.to_N bs = s.
Proof.
  intros Hs. revert bs.
  induction Hs as [|c s Hc Hs IH]; simpl; intros bs.
  - by intros [= <-].
  - unfold encode_char. destruct (N.ltb_spec c 0x80); [|lia].
    destruct (mk_bytes [c]) as [b|] eqn:Hb; [|done].
    destruct (encode_utf8 s) as [bs'|]; [|done].
    intros [= <-]. rewrite map_app, (mk_bytes_to_N _ _ Hb).
    simpl. by rewrite (IH bs').
Qed.

Lemma is_cont_inv b : is_cont b = true → 0x80 ≤ b ∧ b ≤ 0xBF.
Proof.
  unfold is_cont. by intros [?%N.leb_le ?%N.leb_le]%andb_prop.
Qed.

Lemma bad_second_inv b1 b2 :
  bad_second b1 b2 = false →
  is_cont b2 = true ∧
  (b1 = 0xE0 → 0xA0 ≤ b2) ∧ (b1 = 0xED → b2 < 0xA0) ∧
  (b1 = 0xF0 → 0x90 ≤ b2) ∧ (b1 = 0xF4 → b2 < 0x90).
Proof.
  unfold bad_second.
  intros [[[[Hc HE0]%orb_false_elim HED]%orb_false_elim
             HF0]%orb_false_elim HF4]%orb_false_elim.
  apply negb_false_iff in Hc. split; [done|].
  repeat split; intros ->; simpl in *.
  - by apply N.ltb_ge.
  - by apply N.leb_gt.
  - by apply N.ltb_ge.
  - by apply N.leb_gt.
Qed.

(** Whatever the bytes, the decoder gives scalar values only, and no
    more characters than there are bytes. *)
Lemma decode_ignore_scalar n : ∀ bs,
  (length bs ≤ n)%nat →
  Forall (λ b, b ≤ 255) bs →
  Forall is_scalar (decode_ignore bs) ∧
  (length (decode_ignore bs) ≤ length bs)%nat.
Proof.
  unfold is_scalar.
  induction n as [|n IH]; intros bs Hn Hbs.
  { destruct bs; [by split|simpl in Hn; lia]. }
  destruct bs as [|b1 t1]; [by split|].
  simpl in Hn. apply Forall_cons in Hbs as [Hb1 Ht1].
  assert (∀ t, (length t ≤ length t1)%nat → Forall (λ b, b ≤ 255) t →
            Forall (λ c, c < 0xD800 ∨ (0xDFFF < c ∧ c < 0x110000))
              (decode_ignore t) ∧
            (length (decode_ignore t) ≤ length t1)%nat) as Hrec.
  { intros t Ht Hall. destruct (IH t) as [? ?]; [lia|done|]. split; [done|lia]. }
  assert (∀ c t, (length t ≤ length t1)%nat → Forall (λ b, b ≤ 255) t →
            c < 0xD800 ∨ (0xDFFF < c ∧ c < 0x110000) →
            Forall (λ c, c < 0xD800 ∨ (0xDFFF < c ∧ c < 0x110000))
              (c :: decode_ignore t) ∧
            (length (c :: decode_ignore t) ≤ length (b1 :: t1))%nat) as Hemit.
  { intros c t Ht Hall Hc. destruct (IH t) as [? ?]; [lia|done|].
    split; [by constructor|simpl; lia]. }
  assert (∀ t, (length t ≤ length t1)%nat → Forall (λ b, b ≤ 255) t →
            Forall (λ c, c < 0xD800 ∨ (0xDFFF < c ∧ c < 0x110000))
              (decode_ignore t) ∧
            (length (decode_ignore t) ≤ length (b1 :: t1))%nat) as Hskip.
  { intros t Ht Hall. destruct (Hrec t Ht Hall). split; [done|simpl; lia]. }
  assert (Forall (λ c, c < 0xD800 ∨ (0xDFFF < c ∧ c < 0x110000)) [] ∧
          (length (@nil N) ≤ length (b1 :: t1))%nat) as Hend.
  { split; [constructor|simpl; lia]. }
  rewrite decode_ignore_cons.
  destruct (N.ltb_spec b1 0x80); [apply Hemit; [done..|lia]|].
  destruct (N.ltb_spec b1 0xC2); [by apply Hskip|].
  destruct (N.ltb_spec b1 0xE0).
  { destruct t1 as [|b2 t2]; [done|].
    apply Forall_cons in Ht1 as [Hb2 Ht2].
    destruct (is_cont b2) eqn:Hc2; [|apply Hskip; [done|by constructor]].
    apply is_cont_inv in Hc2.
    apply Hemit; [simpl; lia|done|lia]. }
  destruct (N.ltb_spec b1 0xF0).
  { destruct t1 as [|b2 t2]; [done|].
    apply Forall_cons in Ht1 as [Hb2 Ht2].
    destruct (bad_second b1 b2) eqn:Hbad;
      [apply Hskip; [done|by constructor]|].
    apply bad_second_inv in Hbad as (Hc2%is_cont_inv & HE0 & HED & _).
    destruct t2 as [|b3 t3]; [done|].
    apply Forall_cons in Ht2 as [Hb3 Ht3].
    destruct (is_cont b3) eqn:Hc3;
      [|apply Hskip; [simpl; lia|by constructor]].
    apply is_cont_inv in Hc3.
    apply Hemit; [simpl; lia|done|].
    destruct (N.eq_dec b1 0xE0) as [He|He]; [specialize (HE0 He); lia|].
    destruct (N.eq_dec b1 0xED) as [Hd|Hd]; [specialize (HED Hd); lia|].
    lia. }
  destruct (N.ltb_spec b1 0xF5); [|by apply Hskip].
  destruct t1 as [|b2 t2]; [done|].
  apply Forall_cons in Ht1 as [Hb2 Ht2].
  destruct (bad_second b1 b2) eqn:Hbad;
    [apply Hskip; [done|by constructor]|].
  apply bad_second_inv in Hbad as (Hc2%is_cont_inv & _ & _ & HF0 & HF4).
  destruct t2 as [|b3 t3]; [done|].
  apply Forall_cons in Ht2 as [Hb3 Ht3].
  destruct (is_cont b3) eqn:Hc3;
    [|apply Hskip; [simpl; lia|by constructor]].
  apply is_cont_inv in Hc3.
  destruct t3 as [|b4 t4]; [done|].
  apply Forall_cons in Ht3 as [Hb4 Ht4].
  destruct (is_cont b4) eqn:Hc4;
    [|apply Hskip; [simpl; lia|by constructor]].
  apply is_cont_inv in Hc4.
  apply Hemit; [simpl; lia|done|].
  destruct (N.eq_dec b1 0xF0) as [He|He]; [specialize (HF0 He); lia|].
  destruct (N.eq_dec b1 0xF4) as [Hd|Hd]; [specialize (HF4 Hd); lia|].
  lia.
Qed.

Lemma decode_utf8_ignore_scalar b :
  Forall is_scalar (decode_utf8_ignore b) ∧
  (length (decode_utf8_ignore b) ≤ length b)%nat.
Proof.
  unfold decode_utf8_ignore.
  destruct (decode_ignore_scalar (length b) (map Byte.to_N b)) as [Hs Hl].
  - by rewrite length_map.
  - apply Forall_map, Forall_forall. intros x _. apply Byte.to_N_bounded.
  - split; [done|]. by rewrite length_map in Hl.
Qed.

End Utf8Facts.

(* ===================================================================== *)
(** ** More properties of [call_rpc] and [main] *)
(* ===================================================================== *)

Module RpcExtra.
Import Py Codec World Script Samples StrFacts CodecFacts Utf8Facts RpcProps.

Lemma startswith_spec s p : startswith s p = true ↔ ∃ t, s = p ++ t.
Proof.
  revert s. induction p as [|c p IH]; intros s; simpl.
  - split; [eauto|done].
  - destruct s as [|d s].
    + split; [done|]. by intros [t ?].
    + rewrite andb_true_iff, N.eqb_eq, IH. split.
      * intros [-> [t ->]]. eauto.
      * intros [t [= -> ->]]. eauto.
Qed.

(** [sub in s] holds exactly when [sub] occurs somewhere in [s]. *)
Lemma contains_spec sub s :
  contains sub s = true ↔ ∃ a b, s = a ++ sub ++ b.
Proof.
  split.
  - induction s as [|c s IH]; simpl.
    + rewrite orb_false_r. intros [t Ht]%startswith_spec.
      exists [], t. done.
    + intros [[t Ht]%startswith_spec|Hin]%orb_true_iff.
      * by exists [], t.
      * destruct (IH Hin) as (a & b & ->). by exists (c :: a), b.
  - intros (a & b & ->). induction a as [|c a IH]; simpl.
    + destruct (sub ++ b) eqn:Hsb; simpl;
        (apply orb_true_iff; left; apply startswith_spec; rewrite <- Hsb; eauto).
    + rewrite IH. apply orb_true_r.
Qed.

(** The headers of the request [call_rpc] builds, under the names
    [add_header] stores them by. *)
Lemma build_request_headers url key body :
  headers (build_request url key body) =
  [(lit "Apikey", key);
   (lit "Authorization", lit "Bearer " ++ key);
   (lit "Content-type", lit "application/json")].
Proof. reflexivity. Qed.

Section Urllib.
Context {U : Urllib}.

Lemma rpc_request_fields url key p req :
  rpc_request url key p = Some req →
  method req = lit "POST" ∧
  headers req =
    [(lit "Apikey", key);
     (lit "Authorization", lit "Bearer " ++ key);
     (lit "Content-type", lit "application/json")] ∧
  map Byte.to_N (data req) = json_dumps p ∧
  decode_utf8_ignore (data req) = json_dumps p.
Proof.
  unfold rpc_request.
  destruct (request_error (endpoint url)); [done|].
  destruct (encode_utf8 (json_dumps p)) as [b|] eqn:Hb; [|done].
  intros [= <-]. split; [done|]. split; [apply build_request_headers|].
  split.
  - apply (encode_ascii_bytes _ _ (json_dumps_ascii p) Hb).
  - apply (decode_encode _ _ Hb).
Qed.

(** The requests the two checks hand to [urlopen]: the first, and the
    second unless the first call raised. *)
Lemma checks_sent w url key req1 req2 :
  rpc_request url key payload1 = Some req1 →
  rpc_request url key payload2 = Some req2 →
  sent (checks url key w initial).2 = [req1] ∨
  sent (checks url key w initial).2 = [req1; req2].
Proof.
  intros H1 H2. rewrite (checks_run _ _ _ _ _ H1 H2).
  destruct (reply w [] url key payload1) as [[st body]|e]; [|by left].
  cbv zeta.
  destruct (reply w [req1] url key payload2) as [[st2 body2]|e]; by right.
Qed.

(** The calls of [main] depend on the world through its server only. *)
Lemma checks_same_server w w' url key :
  server w = server w' →
  checks url key w initial = checks url key w' initial.
Proof.
  intros Hs.
  destruct (request_error (endpoint url)) as [e|] eqn:Herr.
  - by rewrite !(checks_rejected _ _ _ _ Herr).
  - destruct (rpc_request_accepted url key payload1 Herr) as [req1 H1].
    destruct (rpc_request_accepted url key payload2 Herr) as [req2 H2].
    rewrite !(checks_run _ _ _ _ _ H1 H2).
    by rewrite !(reply_server _ _ _ _ _ _ H1),
      !(reply_server _ _ _ _ _ _ H2), Hs.
Qed.

(** X8: a call of [call_rpc] prints nothing and hands at most one
    request to [urlopen]: none when the constructor refuses the
    endpoint, as it does a URL without a scheme, and otherwise one,
    whatever the outcome of the exchange: a POST with the key under
    [Apikey] and after [Bearer] under [Authorization], and with a body
    of ASCII bytes that decodes to the JSON text of the payload. *)
Theorem call_rpc_one_request w s url key p :
  stdout (call_rpc url key p w s).2 = stdout s ∧
  (∀ e,
     request_error (endpoint url) = Some e →
     call_rpc url key p w s = (Raise e, s)) ∧
  (request_error (endpoint url) = None →
   ∃ req,
     rpc_request url key p = Some req ∧
     sent (call_rpc url key p w s).2 = sent s ++ [req] ∧
     method req = lit "POST" ∧
     headers req =
       [(lit "Apikey", key);
        (lit "Authorization", lit "Bearer " ++ key);
        (lit "Content-type", lit "application/json")] ∧
     map Byte.to_N (data req) = json_dumps p ∧
     decode_utf8_ignore (data req) = json_dumps p).
Proof.
  split; [|split; [intros e; apply call_rpc_rejected|]].
  - destruct (request_error (endpoint url)) as [e|] eqn:Herr.
    + by rewrite (call_rpc_rejected _ _ _ _ _ _ Herr).
    + destruct (rpc_request_accepted url key p Herr) as [req Hreq].
      by rewrite (call_rpc_run _ _ _ _ _ _ Hreq).
  - intros Hacc.
    destruct (rpc_request_accepted url key p Hacc) as [req Hreq].
    exists req. split; [done|].
    split; [by rewrite (call_rpc_run _ _ _ _ _ _ Hreq)|].
    apply (rpc_request_fields _ _ _ _ Hreq).
Qed.

(** X9: when the server sends the UTF-8 encoding of a text, as a
    response or with an error status, [call_rpc] returns that very
    text with the status code. *)
Theorem call_rpc_returns_sent_text w s url key p req text raw code :
  rpc_request url key p = Some req →
  encode_utf8 text = Some raw →
  server w (sent s) req 20 = Ok {| status := code; content := raw |} ∨
  server w (sent s) req 20 = Raise (HTTPError code raw) →
  (call_rpc url key p w s).1 = Ok (code, text).
Proof.
  intros Hreq Henc Hsrv. rewrite (call_rpc_run _ _ _ _ _ _ Hreq).
  destruct Hsrv as [-> | ->]; simpl; by rewrite (decode_encode _ _ Henc).
Qed.

(** The requests of a run with both names given: none when the
    constructor refuses the endpoint, else those of the two calls. *)
Lemma run_sent w url key :
  configured w url key →
  (∃ e, request_error (endpoint url) = Some e ∧ sent (run w).2 = []) ∨
  (request_error (endpoint url) = None ∧
   ∃ req1 req2,
     rpc_request url key payload1 = Some req1 ∧
     rpc_request url key payload2 = Some req2 ∧
     (sent (run w).2 = [req1] ∨ sent (run w).2 = [req1; req2])).
Proof.
  intros Hc. rewrite (run_configured _ _ _ Hc).
  destruct (request_error (endpoint url)) as [e|] eqn:Herr.
  - left. exists e. by rewrite (checks_rejected _ _ _ _ Herr).
  - right. split; [done|].
    destruct (rpc_request_accepted url key payload1 Herr) as [req1 H1].
    destruct (rpc_request_accepted url key payload2 Herr) as [req2 H2].
    exists req1, req2. split; [done|]. split; [done|]. by apply checks_sent.
Qed.

Lemma run_sent_cases w :
  (∃ url key, configured w url key) ∨ sent (run w).2 = [].
Proof.
  destruct (files w (lit ".env")) as [|text|e] eqn:Hf.
  - right. by rewrite (run_missing _ Hf).
  - destruct (run_regular_cases _ _ Hf) as [?| ->]; [by left|by right].
  - right. by rewrite (run_unreadable _ _ Hf).
Qed.

(** X10: [main] hands at most two requests to [urlopen]; it hands one
    at all exactly when [.env] gives both names a non-empty value and
    the constructor accepts the endpoint of that URL; and every
    request is the one [call_rpc] builds from the URL and the key of
    the file for one of the two payloads: a POST with that key in its
    headers. *)
Theorem main_requests w :
  (length (sent (run w).2) ≤ 2)%nat ∧
  (sent (run w).2 ≠ [] ↔
   ∃ url key,
     configured w url key ∧ request_error (endpoint url) = None) ∧
  (∀ url key req,
     configured w url key →
     req ∈ sent (run w).2 →
     (rpc_request url key payload1 = Some req ∨
      rpc_request url key payload2 = Some req) ∧
     method req = lit "POST" ∧
     headers req =
       [(lit "Apikey", key);
        (lit "Authorization", lit "Bearer " ++ key);
        (lit "Content-type", lit "application/json")]).
Proof.
  split; [|split].
  - destruct (run_sent_cases w) as [(url & key & Hc)| ->]; [|simpl; lia].
    destruct (run_sent _ _ _ Hc)
      as [(e & _ & ->)|(_ & req1 & req2 & _ & _ & [-> | ->])];
      simpl; lia.
  - split.
    + intros Hne.
      destruct (run_sent_cases w) as [(url & key & Hc)|Hnil]; [|done].
      exists url, key. split; [done|].
      by destruct (run_sent _ _ _ Hc) as [(e & _ & Hs)|(Hacc & _)].
    + intros (url & key & Hc & Hacc).
      destruct (run_sent _ _ _ Hc)
        as [(e & He & _)|(_ & req1 & req2 & _ & _ & [-> | ->])];
        [congruence|done..].
  - intros url key req Hc Hin.
    destruct (run_sent _ _ _ Hc)
      as [(e & _ & Hs)|(_ & req1 & req2 & H1 & H2 & Hsent)].
    { rewrite Hs in Hin. by apply elem_of_nil in Hin. }
    assert (req = req1 ∨ req = req2) as [-> | ->].
    { destruct Hsent as [Hs|Hs]; rewrite Hs in Hin.
      - apply list_elem_of_singleton in Hin. by left.
      - apply elem_of_cons in Hin as [?|Hin]; [by left|].
        apply list_elem_of_singleton in Hin. by right. }
    + destruct (rpc_request_fields _ _ _ _ H1) as (? & ? & _). auto.
    + destruct (rpc_request_fields _ _ _ _ H2) as (? & ? & _). auto.
Qed.

(** X11: when both calls answer, the dump lines of the report are the
    first 600 characters of the bodies, while the two verdicts look at
    the whole bodies: the failure line of step 1 and the success line
    of step 2 appear exactly when the phrase occurs somewhere in the
    body, within the part printed or beyond it. *)
Theorem verdicts_read_whole_body w url key req1 st1 body1 st2 body2 :
  configured w url key →
  rpc_request url key payload1 = Some req1 →
  reply w [] url key payload1 = Ok (st1, body1) →
  reply w [req1] url key payload2 = Ok (st2, body2) →
  stdout (run w).2 !! 2%nat = Some (take 600 body1) ∧
  stdout (run w).2 !! 6%nat = Some (take 600 body2) ∧
  (length (take 600 body1) ≤ 600)%nat ∧
  (length (take 600 body2) ≤ 600)%nat ∧
  (stdout (run w).2 !! 3%nat = Some msg_not_deployed ↔
   ∃ a b, body1 = a ++ phrase_not_found ++ b) ∧
  (stdout (run w).2 !! 7%nat = Some msg_guard_active ↔
   ∃ a b, body2 = a ++ phrase_guard ++ b).
Proof.
  intros Hcfg H1 Hr1 Hr2.
  destruct (rpc_request_accepted url key payload2
              (rpc_request_Some _ _ _ _ H1)) as [req2 H2].
  rewrite (run_configured _ _ _ Hcfg), (checks_run _ _ _ _ _ H1 H2).
  rewrite Hr1. cbv zeta. rewrite Hr2. cbn [snd stdout].
  split; [done|]. split; [done|].
  split; [rewrite length_take; lia|]. split; [rewrite length_take; lia|].
  rewrite <- !contains_spec. split.
  - cbn [lookup list_lookup app].
    destruct (contains phrase_not_found body1); by split.
  - destruct (contains phrase_guard body2); by split.
Qed.

(** X12: [main] prints nothing exactly when [.env] exists and reading
    it raises; the exception then leaves [main] and no request is
    made. *)
Theorem main_silent_iff_unreadable w :
  (stdout (run w).2 = [] ↔ ∃ e, files w (lit ".env") = Unreadable e) ∧
  (∀ e, files w (lit ".env") = Unreadable e → run w = (Raise e, initial)).
Proof.
  split; [|apply run_unreadable].
  destruct (files w (lit ".env")) as [|text|e] eqn:Hf.
  - rewrite (run_missing _ Hf). split; [done|]. by intros [e ?].
  - split; [|by intros [e ?]]. intros Hout. exfalso.
    destruct (run_regular_cases _ _ Hf) as [(url & key & Hc)|Hstop].
    + rewrite (run_configured _ _ _ Hc) in Hout.
      destruct (request_error (endpoint url)) as [e|] eqn:Herr.
      { by rewrite (checks_rejected _ _ _ _ Herr) in Hout. }
      destruct (rpc_request_accepted url key payload1 Herr) as [req1 H1].
      destruct (rpc_request_accepted url key payload2 Herr) as [req2 H2].
      rewrite (checks_run _ _ _ _ _ H1 H2) in Hout.
      destruct (reply w [] url key payload1) as [[st body]|e1]; [|done].
      cbv zeta in Hout.
      by destruct (reply w [req1] url key payload2) as [[st2 body2]|e2].
    + by rewrite Hstop in Hout.
  - rewrite (run_unreadable _ _ Hf). split; [eauto|done].
Qed.

(** X13: a call that raises ends the run where it stands.  When the
    constructor refuses the endpoint, only the header of step 1 has
    been printed and no request is made; when the first exchange
    raises, the same header has been printed, the first request has
    been made and the second never is; when the second raises, the
    five lines of step 1, its verdict among them, have been printed
    and each request has been made once. *)
Theorem main_stops_at_failed_call w url key e :
  configured w url key →
  (request_error (endpoint url) = Some e →
   run w = (Raise e, {| stdout := [msg_step1]; sent := [] |})) ∧
  (∀ req1 req2,
     rpc_request url key payload1 = Some req1 →
     rpc_request url key payload2 = Some req2 →
     (reply w [] url key payload1 = Raise e →
      run w = (Raise e, {| stdout := [msg_step1]; sent := [req1] |})) ∧
     (∀ st body,
        reply w [] url key payload1 = Ok (st, body) →
        reply w [req1] url key payload2 = Raise e →
        run w =
          (Raise e,
           {| stdout :=
                [msg_step1; lit "HTTP " ++ str_of_int st; slice_to 600 body;
                 if contains phrase_not_found body
                 then msg_not_deployed else msg_callable;
                 msg_step2];
              sent := [req1; req2] |}))).
Proof.
  intros Hcfg. rewrite (run_configured _ _ _ Hcfg). split.
  - apply checks_rejected.
  - intros req1 req2 H1 H2. rewrite (checks_run _ _ _ _ _ H1 H2). split.
    + by intros ->.
    + intros st body -> Hr2. cbv zeta. by rewrite Hr2.
Qed.

(** X14: whatever bytes the server sends, the body text [call_rpc]
    returns holds Unicode scalar values only: no surrogate and nothing
    above U+10FFFF. *)
Theorem call_rpc_body_scalar w s url key p code body :
  (call_rpc url key p w s).1 = Ok (code, body) →
  Forall is_scalar body.
Proof.
  destruct (request_error (endpoint url)) as [e|] eqn:Herr.
  { by rewrite (call_rpc_rejected _ _ _ _ _ _ Herr). }
  destruct (rpc_request_accepted url key p Herr) as [req Hreq].
  rewrite (call_rpc_run _ _ _ _ _ _ Hreq). simpl.
  destruct (server w (sent s) req 20) as [resp|[]]; try done;
    intros [= _ <-]; apply decode_utf8_ignore_scalar.
Qed.

(** X15: when a name is assigned on several lines, [main] goes by the
    last one: if the last value of either name is empty the run stops
    at the missing-key line without a request; otherwise the calls
    are made with the last URL and the last key: the constructor
    refuses the endpoint of that URL and the run ends there, or the
    first request is the one built from that URL and that key. *)
Theorem main_uses_last_assignment w text pre post pre' post' url key :
  files w (lit ".env") = Regular text →
  entries text = pre ++ (lit "SUPABASE_URL", url) :: post →
  lit "SUPABASE_URL" ∉ post.*1 →
  entries text = pre' ++ (lit "SUPABASE_ANON_KEY", key) :: post' →
  lit "SUPABASE_ANON_KEY" ∉ post'.*1 →
  (url = [] ∨ key = [] →
   run w = (Ok tt, {| stdout := [msg_no_keys]; sent := [] |})) ∧
  (url ≠ [] → key ≠ [] →
   (∀ e,
      request_error (endpoint url) = Some e →
      run w = (Raise e, {| stdout := [msg_step1]; sent := [] |})) ∧
   (request_error (endpoint url) = None →
    ∃ req others,
      rpc_request url key payload1 = Some req ∧
      sent (run w).2 = req :: others ∧
      headers req =
        [(lit "Apikey", key);
         (lit "Authorization", lit "Bearer " ++ key);
         (lit "Content-type", lit "application/json")])).
Proof.
  intros Hf Hu Hupost Hk Hkpost.
  pose proof (EnvProps.load_env_lines_fold ∅ (splitlines text)) as Henv.
  fold (load_env_text text) in Henv. fold (entries text) in Henv.
  assert (foldl add ∅ (entries text) !! lit "SUPABASE_URL" = Some url) as Hlu.
  { rewrite Hu. by apply EnvProps.lookup_foldl_add_last. }
  assert (foldl add ∅ (entries text) !! lit "SUPABASE_ANON_KEY" = Some key)
    as Hlk.
  { rewrite Hk. by apply EnvProps.lookup_foldl_add_last. }
  split.
  - intros Hempty. rewrite (run_regular _ _ _ Hf Henv), Hlu, Hlk.
    destruct Hempty as [-> | ->]; [done|]. by destruct url.
  - intros Hune Hkne.
    assert (configured w url key) as Hcfg
      by by apply (is_configured text).
    rewrite (run_configured _ _ _ Hcfg). split.
    + intros e. apply checks_rejected.
    + intros Hacc.
      destruct (rpc_request_accepted url key payload1 Hacc) as [req1 H1].
      destruct (rpc_request_accepted url key payload2 Hacc) as [req2 H2].
      destruct (rpc_request_fields _ _ _ _ H1) as (_ & Hh & _).
      destruct (checks_sent w _ _ _ _ H1 H2) as [-> | ->]; eauto.
Qed.

(** X16: of the file, [main] uses the values of the two names and
    nothing else: two runs against the same server whose files agree
    on [SUPABASE_URL] and [SUPABASE_ANON_KEY] are the same run. *)
Theorem main_ignores_other_keys w w' text text' env env' :
  files w (lit ".env") = Regular text →
  files w' (lit ".env") = Regular text' →
  load_env_text text = Ok env →
  load_env_text text' = Ok env' →
  env !! lit "SUPABASE_URL" = env' !! lit "SUPABASE_URL" →
  env !! lit "SUPABASE_ANON_KEY" = env' !! lit "SUPABASE_ANON_KEY" →
  server w = server w' →
  run w = run w'.
Proof.
  intros Hf Hf' Henv Henv' Hu Hk Hs.
  rewrite (run_regular _ _ _ Hf Henv), (run_regular _ _ _ Hf' Henv').
  rewrite Hu, Hk.
  destruct (env' !! lit "SUPABASE_URL") as [url|]; [|done].
  destruct (env' !! lit "SUPABASE_ANON_KEY") as [key|]; [|done].
  destruct (is_empty url || is_empty key); [done|].
  by apply checks_same_server.
Qed.

End Urllib.

(** The runs below go with a library whose further checks accept the
    URLs of the samples. *)
#[local] Existing Instance lenient.

Lemma sample_configured w :
  files w = dotenv full_env →
  configured w (lit "https://x.test/") (lit "anon").
Proof.
  intros Hf. apply (is_configured full_env);
    [by rewrite Hf| | |done|done]; vm_compute; reflexivity.
Qed.

Lemma call_rpc_one_request_witness :
  call_rpc (lit "x.test") (lit "anon") payload1 guarded initial =
    (Raise (ValueError "unknown url type"), initial) ∧
  length (sent (call_rpc (lit "https://x.test") (lit "anon") payload1
                  offline initial).2) = 1%nat.
Proof.
  split.
  - apply (proj1 (proj2 (call_rpc_one_request guarded initial
                           (lit "x.test") (lit "anon") payload1))).
    vm_compute. reflexivity.
  - destruct (proj2 (proj2 (call_rpc_one_request offline initial
                              (lit "https://x.test") (lit "anon") payload1)))
      as (req & _ & -> & _); [vm_compute; reflexivity|].
    reflexivity.
Defined.

Lemma call_rpc_returns_sent_text_witness :
  (call_rpc (lit "https://x.test/") (lit "anon") payload1 echo initial).1
  = Ok (200%Z, body_unicode).
Proof.
  apply (call_rpc_returns_sent_text echo initial
           (lit "https://x.test/") (lit "anon") payload1
           (build_request (lit "https://x.test/") (lit "anon")
              (default [] (encode_utf8 (json_dumps payload1))))
           body_unicode
           (default [] (encode_utf8 body_unicode))).
  - vm_compute. reflexivity.
  - vm_compute. reflexivity.
  - left. vm_compute. reflexivity.
Defined.

Lemma main_requests_witness :
  Forall (λ req, method req = lit "POST") (sent (run guarded).2).
Proof.
  apply Forall_forall. intros req Hin.
  destruct (proj2 (proj2 (main_requests guarded))
              (lit "https://x.test/") (lit "anon") req) as (_ & Hm & _).
  - by apply sample_configured.
  - exact Hin.
  - exact Hm.
Defined.

Lemma verdicts_read_whole_body_witness :
  stdout (run undeployed).2 !! 3%nat = Some msg_not_deployed.
Proof.
  destruct (verdicts_read_whole_body undeployed
              (lit "https://x.test/") (lit "anon")
              (build_request (lit "https://x.test/") (lit "anon")
                 (default [] (encode_utf8 (json_dumps payload1))))
              404%Z (decode_utf8_ignore body_not_found)
              404%Z (decode_utf8_ignore body_not_found))
    as (_ & _ & _ & _ & Hbad & _).
  - by apply sample_configured.
  - vm_compute. reflexivity.
  - vm_compute. reflexivity.
  - vm_compute. reflexivity.
  - apply Hbad.
    exists (lit "{'message': '"),
      (lit "(p_points) in the schema cache'}").
    vm_compute. reflexivity.
Defined.

Lemma main_silent_iff_unreadable_witness :
  run locked = (Raise (OSError "Is a directory"), initial).
Proof.
  exact (proj2 (main_silent_iff_unreadable locked)
           (OSError "Is a directory") eq_refl).
Defined.

Lemma main_stops_at_failed_call_witness :
  run schemeless =
    (Raise (ValueError "unknown url type"),
     {| stdout := [msg_step1]; sent := [] |}) ∧
  (run half_way).1 = Raise TimeoutError ∧
  length (stdout (run half_way).2) = 5%nat ∧
  length (sent (run half_way).2) = 2%nat.
Proof.
  split.
  - apply (proj1 (main_stops_at_failed_call schemeless
                    (lit "x.test") (lit "anon")
                    (ValueError "unknown url type")
                    ltac:(apply (is_configured schemeless_env);
                          [reflexivity| | |done|done];
                          vm_compute; reflexivity))).
    vm_compute. reflexivity.
  - destruct (proj2 (main_stops_at_failed_call half_way
                       (lit "https://x.test/") (lit "anon") TimeoutError
                       (sample_configured half_way eq_refl))
                (build_request (lit "https://x.test/") (lit "anon")
                   (default [] (encode_utf8 (json_dumps payload1))))
                (build_request (lit "https://x.test/") (lit "anon")
                   (default [] (encode_utf8 (json_dumps payload2)))))
      as [_ Hsecond].
    + vm_compute. reflexivity.
    + vm_compute. reflexivity.
    + rewrite (Hsecond 200%Z (lit "[]")).
      * repeat split.
      * vm_compute. reflexivity.
      * vm_compute. reflexivity.
Defined.

Lemma call_rpc_body_scalar_witness : Forall is_scalar body_unicode.
Proof.
  apply (call_rpc_body_scalar echo initial
           (lit "https://x.test/") (lit "anon") payload1 200%Z).
  vm_compute. reflexivity.
Defined.

Lemma main_uses_last_assignment_witness :
  run overridden = (Ok tt, {| stdout := [msg_no_keys]; sent := [] |}).
Proof.
  destruct (main_uses_last_assignment overridden override_env
              [(lit "SUPABASE_URL", lit "https://x.test");
               (lit "SUPABASE_ANON_KEY", lit "anon")] []
              [(lit "SUPABASE_URL", lit "https://x.test")]
              [(lit "SUPABASE_URL", [])]
              [] (lit "anon")) as [Hstop _].
  - reflexivity.
  - reflexivity.
  - apply not_elem_of_nil.
  - reflexivity.
  - vm_compute. intros Hin. apply list_elem_of_singleton in Hin.
    discriminate.
  - apply Hstop. by left.
Defined.

Lemma main_ignores_other_keys_witness :
  run {| files := dotenv (lit "EXTRA=1" ++ [LF] ++ full_env);
         server := server guarded |}
  = run guarded.
Proof.
  apply (main_ignores_other_keys _ guarded
           (lit "EXTRA=1" ++ [LF] ++ full_env) full_env
           (foldl add ∅ (entries (lit "EXTRA=1" ++ [LF] ++ full_env)))
           (foldl add ∅ (entries full_env))).
  - reflexivity.
  - reflexivity.
  - apply EnvProps.load_env_lines_fold.
  - apply EnvProps.load_env_lines_fold.
  - vm_compute. reflexivity.
  - vm_compute. reflexivity.
  - reflexivity.
Defined.

End RpcExtra.
